(** * ink-select-input: the selection / windowing state machine of
    [src/SelectInput.tsx]

    The component keeps two integers of React state, [rotateIndex] and
    [selectedIndex], and a [useInput] handler that reads the values captured
    at render time, calls the two setters and the two observer callbacks.
    The handler is embedded as a function into a small writer monad with
    early exit: its output is the ordered list of setter and callback calls
    it performs; [commit] replays the setter calls on the state.

    JavaScript numbers are modelled as [Z] (indices and limits are integers
    in every use of the component; NaN and fractions are not modelled).
    Array reads out of range give [None] (JavaScript's [undefined]). *)

From Stdlib Require Import ZArith String Ascii List Lia Bool.
From stdpp Require Import base list.
Import ListNotations.

Local Open Scope Z_scope.

(** ** JavaScript array primitives *)

Module Js.

(** [arr[i]] for an integer [i]: [undefined] outside [0 .. length-1]. *)
Definition index {A : Type} (arr : list A) (i : Z) : option A :=
  if i <? 0 then None else arr !! Z.to_nat i.

(** The relative index of [Array.prototype.slice]: a negative argument
    counts from the end; the result is clamped into [0 .. len]. *)
Definition relative (len i : Z) : Z :=
  if i <? 0 then Z.max (len + i) 0 else Z.min i len.

(** [arr.slice(start, end)]; [end_ = None] is an omitted second argument. *)
Definition slice {A : Type} (arr : list A) (start : Z) (end_ : option Z)
  : list A :=
  let len := Z.of_nat (length arr) in
  let k := relative len start in
  let final := match end_ with Some e => relative len e | None => len end in
  take (Z.to_nat (final - k)) (drop (Z.to_nat k) arr).

(** [arrayToRotated] is the default export of the [to-rotated] package
    (a dependency in package.json, not part of this repository): a copy of
    the array rotated by [steps], to the right for positive [steps] and to
    the left for negative ones. [%] is JavaScript's truncated remainder.
    (The package rejects a [steps] that is not a safe integer; the
    component only passes [rotateIndex].) *)
Definition arrayToRotated {A : Type} (array : list A) (steps : Z) : list A :=
  let len := Z.of_nat (length array) in
  if len =? 0 then array
  else
    let normalizedSteps := Z.rem (Z.rem steps len + len) len in
    if normalizedSteps =? 0 then array
    else slice array (- normalizedSteps) None
           ++ slice array 0 (Some (- normalizedSteps)).

(** [/^[1-9]$/.test(input)] *)
Definition test_1_9 (input : string) : bool :=
  match input with
  | String c EmptyString =>
      let n := nat_of_ascii c in (49 <=? n)%nat && (n <=? 57)%nat
  | _ => false
  end.

(** [Number.parseInt(input, 10)] on a string of decimal digits. *)
Definition parseInt10 (input : string) : Z :=
  fold_left (fun acc c => 10 * acc + (Z.of_nat (nat_of_ascii c) - 48))
            (list_ascii_of_string input) 0.

End Js.

(** ** The handler monad: a log of calls, with early [return] *)

Module Handler.

(** A computation logs calls of type [E] and either runs to its end with a
    value ([Some]) or leaves the enclosing function by [return] ([None]). *)
Definition t (E A : Type) : Type := (list E * option A)%type.

Definition ret {E A : Type} (a : A) : t E A := ([], Some a).

Definition bind {E A B : Type} (m : t E A) (f : A -> t E B) : t E B :=
  match m with
  | (out, Some a) => let '(out', r) := f a in (out ++ out', r)
  | (out, None) => (out, None)
  end.

(** One call of a setter or callback. *)
Definition call {E : Type} (e : E) : t E unit := ([e], Some tt).

(** JavaScript's [return;] inside the handler. *)
Definition exit {E A : Type} : t E A := ([], None).

(** [if (b) { m }] with no else branch. *)
Definition when {E : Type} (b : bool) (m : t E unit) : t E unit :=
  if b then m else ret tt.

(** The calls the whole function performed. *)
Definition calls {E A : Type} (m : t E A) : list E := fst m.

End Handler.

Declare Scope handler_scope.
Delimit Scope handler_scope with handler.
Notation "m1 ;; m2" := (Handler.bind m1 (fun _ => m2))
  (at level 100, m2 at level 200, right associativity) : handler_scope.

(** ** Data model *)

Inductive Direction : Type := row | column.

Definition Direction_eqb (a b : Direction) : bool :=
  match a, b with
  | row, row | column, column => true
  | _, _ => false
  end.

(** The [key] argument of ink's [useInput] callback (the flags the handler
    reads). *)
Record Key : Type := {
  upArrow : bool;
  downArrow : bool;
  leftArrow : bool;
  rightArrow : bool;
  tab : bool;
  shift : bool;
  return_ : bool
}.

(** React state of the component. *)
Record State : Type := {
  rotateIndex : Z;
  selectedIndex : Z
}.

Section Component.

Context {V : Type}.

Record Item : Type := {
  key : option string;
  label : string;
  value : V
}.

(** The props the state machine reads. A callback prop is modelled by
    whether it was passed ([typeof onSelect === 'function']); its calls are
    recorded in the handler's log. The three renderer props play no part
    in the state machine. *)
Record Props : Type := {
  items : list Item;
  isFocused : bool;
  initialIndex : Z;
  direction : Direction;
  customLimit : option Z;
  onSelect : bool;
  onHighlight : bool
}.

(** What the handler can do: call a state setter or an observer; a
    callback argument read out of range is [None] ([undefined]). *)
Inductive Call : Type :=
| setRotateIndex (v : Z)
| setSelectedIndex (v : Z)
| callOnHighlight (item : option Item)
| callOnSelect (item : option Item).

Definition itemsLength (p : Props) : Z := Z.of_nat (length (items p)).

(** [typeof customLimit === 'number' && items.length > customLimit] *)
Definition hasLimit (p : Props) : bool :=
  match customLimit p with
  | Some c => itemsLength p >? c
  | None => false
  end.

(** [hasLimit ? Math.min(customLimit, items.length) : items.length] *)
Definition limit (p : Props) : Z :=
  if hasLimit p
  then match customLimit p with
       | Some c => Z.min c (itemsLength p)
       | None => itemsLength p  (* not reached: [hasLimit] needs a number *)
       end
  else itemsLength p.

Definition lastIndex (p : Props) : Z := limit p - 1.

(** The two [useState] initial values. [initialIndex ? a : 0] tests the
    number for truthiness, i.e. for being non-zero. *)
Definition initialState (p : Props) : State :=
  {| rotateIndex :=
       if initialIndex p >? lastIndex p
       then lastIndex p - initialIndex p else 0;
     selectedIndex :=
       if negb (initialIndex p =? 0)
       then (if initialIndex p >? lastIndex p
             then lastIndex p else initialIndex p)
       else 0 |}.

(** [hasLimit ? arrayToRotated(items, r).slice(0, limit) : items], the
    expression the render and every branch of the handler use. *)
Definition slicedItems (p : Props) (r : Z) : list Item :=
  if hasLimit p
  then Js.slice (Js.arrayToRotated (items p) r) 0 (Some (limit p))
  else items p.

Local Open Scope handler_scope.

(** The "Previous" block of the handler (first [if]). *)
Definition previousBlock (p : Props) (st : State) (k : Key)
  : Handler.t Call unit :=
  let lastIndex := (if hasLimit p then limit p else itemsLength p) - 1 in
  let atFirstIndex := selectedIndex st =? 0 in
  Handler.when (atFirstIndex && negb (tab k && shift k)) Handler.exit ;;
  let nextIndex := if hasLimit p then selectedIndex st else lastIndex in
  let nextRotateIndex :=
    if atFirstIndex then rotateIndex st + 1 else rotateIndex st in
  let nextSelectedIndex :=
    if atFirstIndex then nextIndex else selectedIndex st - 1 in
  Handler.call (setRotateIndex nextRotateIndex) ;;
  Handler.call (setSelectedIndex nextSelectedIndex) ;;
  let slicedItems := slicedItems p nextRotateIndex in
  Handler.when (onHighlight p)
    (Handler.call (callOnHighlight (Js.index slicedItems nextSelectedIndex))).

(** The "Next" block of the handler (second [if]). *)
Definition nextBlock (p : Props) (st : State) (k : Key)
  : Handler.t Call unit :=
  let atLastIndex :=
    selectedIndex st =? (if hasLimit p then limit p else itemsLength p) - 1 in
  Handler.when (atLastIndex && negb (tab k)) Handler.exit ;;
  let nextIndex := if hasLimit p then selectedIndex st else 0 in
  let nextRotateIndex :=
    if atLastIndex then rotateIndex st - 1 else rotateIndex st in
  let nextSelectedIndex :=
    if atLastIndex then nextIndex else selectedIndex st + 1 in
  Handler.call (setRotateIndex nextRotateIndex) ;;
  Handler.call (setSelectedIndex nextSelectedIndex) ;;
  let slicedItems := slicedItems p nextRotateIndex in
  Handler.when (onHighlight p)
    (Handler.call (callOnHighlight (Js.index slicedItems nextSelectedIndex))).

(** The number-key block (third [if]). An item is an object, hence truthy:
    [if (selectedItem)] only rules out [undefined]. [onSelect?.(x)] calls
    the prop when it was passed. *)
Definition digitBlock (p : Props) (st : State) (input : string)
  : Handler.t Call unit :=
  let targetIndex := Js.parseInt10 input - 1 in
  let visibleItems := slicedItems p (rotateIndex st) in
  Handler.when ((targetIndex >=? 0)
                && (targetIndex <? Z.of_nat (length visibleItems)))
    match Js.index visibleItems targetIndex with
    | Some selectedItem =>
        Handler.when (onSelect p)
          (Handler.call (callOnSelect (Some selectedItem)))
    | None => Handler.ret tt
    end.

(** The return-key block (fourth [if]). *)
Definition returnBlock (p : Props) (st : State) : Handler.t Call unit :=
  let slicedItems := slicedItems p (rotateIndex st) in
  Handler.when (onSelect p)
    (Handler.call (callOnSelect (Js.index slicedItems (selectedIndex st)))).

(** The callback passed to [useInput]: four [if] statements in sequence
    (none of them is an [else if]); [st] is the state captured by the
    closure at render time. *)
Definition handler (p : Props) (st : State) (input : string) (k : Key)
  : Handler.t Call unit :=
  Handler.when
    (String.eqb input "k"
     || (tab k && shift k)
     || (Direction_eqb (direction p) column && upArrow k)
     || (Direction_eqb (direction p) row && leftArrow k))
    (previousBlock p st k) ;;
  Handler.when
    (String.eqb input "j"
     || tab k
     || (Direction_eqb (direction p) column && downArrow k)
     || (Direction_eqb (direction p) row && rightArrow k))
    (nextBlock p st k) ;;
  Handler.when (Js.test_1_9 input) (digitBlock p st input) ;;
  Handler.when (return_ k) (returnBlock p st).

(** [useInput(handler, {isActive: isFocused})]: the calls one input event
    causes. *)
Definition onInput (p : Props) (st : State) (input : string) (k : Key)
  : list Call :=
  if isFocused p then Handler.calls (handler p st input k) else [].

(** React applies the setter calls in order: the last value set wins. *)
Definition applyCall (st : State) (c : Call) : State :=
  match c with
  | setRotateIndex v =>
      {| rotateIndex := v; selectedIndex := selectedIndex st |}
  | setSelectedIndex v =>
      {| rotateIndex := rotateIndex st; selectedIndex := v |}
  | callOnHighlight _ | callOnSelect _ => st
  end.

Definition commit (st : State) (cs : list Call) : State :=
  fold_left applyCall cs st.

(** The arguments of the [onHighlight] calls of a log, in order. *)
Definition highlighted (cs : list Call) : list (option Item) :=
  omap (fun c => match c with callOnHighlight i => Some i | _ => None end) cs.

(** State after one input event. *)
Definition step (p : Props) (st : State) (input : string) (k : Key) : State :=
  commit st (onInput p st input k).

End Component.

Arguments Item : clear implicits.
Arguments Props : clear implicits.
Arguments Call : clear implicits.


(** ** The reset-on-change effect *)

(** [isDeepStrictEqual] of node:util, as an equality contract on the generic
    payload type. *)
Class DeepStrictEqual (A : Type) : Type :=
  isDeepStrictEqual : A -> A -> bool.

(** On two arrays: same length and deeply equal elements, index by index. *)
Fixpoint arrayDeepStrictEqual {A : Type} `{DeepStrictEqual A}
  (a b : list A) : bool :=
  match a, b with
  | [], [] => true
  | x :: a', y :: b' => isDeepStrictEqual x y && arrayDeepStrictEqual a' b'
  | _, _ => false
  end.

#[global] Instance DeepStrictEqual_array {A : Type} `{DeepStrictEqual A}
  : DeepStrictEqual (list A) := arrayDeepStrictEqual.

Section Lifecycle.

Context {V : Type} {deepEq : DeepStrictEqual V}.

(** A mounted component: its React state and the [previousItems] ref. *)
Record Mounted : Type := {
  state : State;
  previousItems : list (Item V)
}.


(** The setter calls of the [useEffect] body for the items of a render. *)
Definition itemsEffect (previous : list (Item V)) (items : list (Item V))
  : list (Call V) :=
  if negb (isDeepStrictEqual (map value previous) (map value items))
  then [setRotateIndex 0; setSelectedIndex 0]
  else [].

(** A render with the array [items]: the effect runs, then the ref is
    updated. *)
Definition render (m : Mounted) (items : list (Item V)) : Mounted :=
  {| state := commit (state m) (itemsEffect (previousItems m) items);
     previousItems := items |}.

(** First render: the [useState] initial values, [useRef(items)], and the
    effect run once against the very same array. *)
Definition mount (p : Props V) : Mounted :=
  render {| state := initialState p; previousItems := items p |} (items p).

(** Two value sequences are the same when they have the same length and
    deeply equal values at every index. *)
Definition sameValues (previous new : list (Item V)) : Prop :=
  Forall2 (fun a b => isDeepStrictEqual (value a) (value b) = true)
          previous new.

End Lifecycle.

Arguments Mounted : clear implicits.

(** ** A fragment of JavaScript values, with object identity

    An object carries the address it lives at: [===] compares addresses,
    [isDeepStrictEqual] compares contents. Property lists are in insertion
    order, with distinct names. *)

#[warnings="-register-all"]
Inductive JsValue : Type :=
| JsNumber (n : Z)
| JsString (s : string)
| JsObject (address : nat) (properties : list (string * JsValue)).

Fixpoint getProperty (name : string) (properties : list (string * JsValue))
  : option JsValue :=
  match properties with
  | [] => None
  | (n, v) :: rest => if String.eqb n name then Some v else getProperty name rest
  end.

(** [a === b] *)
Definition strictEquals (a b : JsValue) : bool :=
  match a, b with
  | JsNumber x, JsNumber y => x =? y
  | JsString x, JsString y => String.eqb x y
  | JsObject x _, JsObject y _ => Nat.eqb x y
  | _, _ => false
  end.

(** [isDeepStrictEqual(a, b)] on this fragment: primitives by value, objects
    by their own properties, in any order. *)
Fixpoint jsDeepStrictEqual (a b : JsValue) : bool :=
  match a, b with
  | JsNumber x, JsNumber y => x =? y
  | JsString x, JsString y => String.eqb x y
  | JsObject _ pa, JsObject _ pb =>
      Nat.eqb (length pa) (length pb)
      && (fix every (ps : list (string * JsValue)) : bool :=
            match ps with
            | [] => true
            | (n, v) :: rest =>
                match getProperty n pb with
                | Some w => jsDeepStrictEqual v w
                | None => false
                end && every rest
            end) pa
  | _, _ => false
  end.

#[global] Instance DeepStrictEqual_JsValue : DeepStrictEqual JsValue :=
  jsDeepStrictEqual.

#[global] Instance DeepStrictEqual_string : DeepStrictEqual string :=
  String.eqb.

(** ** Input events as ink delivers them *)

Definition noKey : Key :=
  {| upArrow := false; downArrow := false; leftArrow := false;
     rightArrow := false; tab := false; shift := false; return_ := false |}.

Definition tabKey : Key :=
  {| upArrow := false; downArrow := false; leftArrow := false;
     rightArrow := false; tab := true; shift := false; return_ := false |}.

Definition shiftTabKey : Key :=
  {| upArrow := false; downArrow := false; leftArrow := false;
     rightArrow := false; tab := true; shift := true; return_ := false |}.

Definition upArrowKey : Key :=
  {| upArrow := true; downArrow := false; leftArrow := false;
     rightArrow := false; tab := false; shift := false; return_ := false |}.

Definition downArrowKey : Key :=
  {| upArrow := false; downArrow := true; leftArrow := false;
     rightArrow := false; tab := false; shift := false; return_ := false |}.

Definition leftArrowKey : Key :=
  {| upArrow := false; downArrow := false; leftArrow := true;
     rightArrow := false; tab := false; shift := false; return_ := false |}.

Definition rightArrowKey : Key :=
  {| upArrow := false; downArrow := false; leftArrow := false;
     rightArrow := true; tab := false; shift := false; return_ := false |}.

Definition returnKey : Key :=
  {| upArrow := false; downArrow := false; leftArrow := false;
     rightArrow := false; tab := false; shift := false; return_ := true |}.

(** An input event: the printable payload and the flags. *)
Definition Event : Type := (string * Key)%type.

Definition Tab : Event := (""%string, tabKey).
Definition ShiftTab : Event := (""%string, shiftTabKey).
Definition Return : Event := (""%string, returnKey).
Definition Char (c : string) : Event := (c, noKey).

(** The digit key [n], for [1 <= n <= 9]. *)
Definition Digit (n : Z) : Event :=
  (String (ascii_of_nat (48 + Z.to_nat n)) EmptyString, noKey).

(** The plain (non-tab) keys of the Previous class for a direction. *)
Definition plainPrevious (d : Direction) : list Event :=
  [Char "k"; (""%string, match d with column => upArrowKey | row => leftArrowKey end)].

(** The plain (non-tab) keys of the Next class for a direction. *)
Definition plainNext (d : Direction) : list Event :=
  [Char "j"; (""%string, match d with column => downArrowKey | row => rightArrowKey end)].

Section Runs.

Context {V : Type}.

Definition calls (p : Props V) (st : State) (e : Event) : list (Call V) :=
  onInput p st (fst e) (snd e).

Definition after (p : Props V) (st : State) (e : Event) : State :=
  step p st (fst e) (snd e).

(** The same event delivered [n] times, each to the re-rendered handler. *)
Definition repeat_event (p : Props V) (e : Event) (n : nat) (st : State)
  : State :=
  Nat.iter n (fun s => after p s e) st.

(** The pair of values the Previous block hands to the two setters. *)
Definition previousTransition (p : Props V) (st : State) : State :=
  if selectedIndex st =? 0
  then {| rotateIndex := rotateIndex st + 1;
          selectedIndex :=
            if hasLimit p then selectedIndex st else limit p - 1 |}
  else {| rotateIndex := rotateIndex st;
          selectedIndex := selectedIndex st - 1 |}.

(** The pair of values the Next block hands to the two setters. *)
Definition nextTransition (p : Props V) (st : State) : State :=
  if selectedIndex st =? limit p - 1
  then {| rotateIndex := rotateIndex st - 1;
          selectedIndex := if hasLimit p then selectedIndex st else 0 |}
  else {| rotateIndex := rotateIndex st;
          selectedIndex := selectedIndex st + 1 |}.

(** The call of [onHighlight], when the prop was passed, for a new state. *)
Definition highlight (p : Props V) (st' : State) : list (Call V) :=
  if onHighlight p
  then [callOnHighlight
          (Js.index (slicedItems p (rotateIndex st')) (selectedIndex st'))]
  else [].

(** The window size of the state machine as the data model words it:
    the smaller of the limit and the item count, the item count when no
    limit is configured. *)
Definition windowSize (p : Props V) : Z :=
  match customLimit p with
  | Some c => Z.min c (itemsLength p)
  | None => itemsLength p
  end.

(** [selectedIndex] is an index into the visible window. *)
Definition validSelection (p : Props V) (st : State) : Prop :=
  0 <= selectedIndex st < windowSize p.

(** The rotation as section 4.1 of the specification words it: the list
    rotated left by [r] positions, the element at position [i] moving to
    position [(i - r) mod itemCount]. *)
Definition rotatedLeft {A : Type} (l : list A) (r : Z) : list A :=
  rotate (Z.to_nat (r mod Z.of_nat (length l))) l.

End Runs.

(** ** Fixtures *)

Definition item (s : string) : Item string :=
  {| key := None; label := s; value := s |}.

Definition ABCDE : list (Item string) :=
  [item "A"; item "B"; item "C"; item "D"; item "E"].

Definition ABC : list (Item string) := [item "A"; item "B"; item "C"].

Definition props (its : list (Item string)) (lim : option Z) : Props string :=
  {| items := its; isFocused := true; initialIndex := 0; direction := column;
     customLimit := lim; onSelect := true; onHighlight := true |}.

Definition propsFrom (its : list (Item string)) (lim : option Z) (i : Z)
  : Props string :=
  {| items := its; isFocused := true; initialIndex := i; direction := column;
     customLimit := lim; onSelect := true; onHighlight := true |}.

(** Two renders' worth of items whose values are distinct objects (the
    addresses differ) with the same contents, under other labels and keys. *)
Definition user (address : nat) (id : Z) (name : string) : JsValue :=
  JsObject address [("id"%string, JsNumber id); ("name"%string, JsString name)].

Definition usersBefore : list (Item JsValue) :=
  [ {| key := None; label := "Ada"; value := user 1 7 "ada" |};
    {| key := None; label := "Bob"; value := user 2 8 "bob" |} ].

Definition usersAfter : list (Item JsValue) :=
  [ {| key := Some "a"%string; label := "ADA";
       value := JsObject 11 [("name"%string, JsString "ada");
                             ("id"%string, JsNumber 7)] |};
    {| key := Some "b"%string; label := "BOB"; value := user 12 8 "bob" |} ].

Definition at_ (r s : Z) : State := {| rotateIndex := r; selectedIndex := s |}.

Definition rowProps (its : list (Item string)) (lim : option Z)
  : Props string :=
  {| items := its; isFocused := true; initialIndex := 0; direction := row;
     customLimit := lim; onSelect := true; onHighlight := true |}.

(** ** The rendered output *)

Section View.

Context {V : Type}.

(** The item the render marks as selected and the return key confirms:
    [slicedItems[selectedIndex]]. *)
Definition highlightedItem (p : Props V) (st : State) : option (Item V) :=
  Js.index (slicedItems p (rotateIndex st)) (selectedIndex st).

(** One [<Box>] of the render: its React key [item.key ?? item.value], the
    indicator element of column mode with the [isSelected] it receives, the
    item element with the item and [isSelected], and whether a divider
    element follows (row mode). *)
Record Box : Type := {
  boxKey : string + V;
  indicator : option bool;
  boxItem : Item V;
  isSelected : bool;
  divider : bool
}.

(** [slicedItems.map((item, index) => ...)] of the render;
    [dividerComponent] tells whether that prop is truthy (it is by default:
    the prop defaults to [Divider]). *)
Definition view (p : Props V) (st : State) (dividerComponent : bool)
  : list Box :=
  let slicedItems := slicedItems p (rotateIndex st) in
  imap (fun index item =>
          let isSelected := Z.of_nat index =? selectedIndex st in
          let boxKey := match key item with
                        | Some k => inl k
                        | None => inr (value item)
                        end in
          if Direction_eqb (direction p) column
          then {| boxKey := boxKey; indicator := Some isSelected;
                  boxItem := item; isSelected := isSelected;
                  divider := false |}
          else {| boxKey := boxKey; indicator := None;
                  boxItem := item; isSelected := isSelected;
                  divider :=
                    dividerComponent
                    && (Z.of_nat index
                          <? Z.of_nat (length slicedItems) - 1) |})
       slicedItems.

(** The position in [items] of the highlighted item: under a limit the slot
    is read through the rotation. *)
Definition logicalIndex (p : Props V) (st : State) : Z :=
  if hasLimit p
  then (selectedIndex st - rotateIndex st) mod itemsLength p
  else selectedIndex st.

(** A call that does not hand [undefined] to an observer. *)
Definition passesItem (c : Call V) : Prop :=
  match c with
  | callOnHighlight None | callOnSelect None => False
  | _ => True
  end.

(** The limit prop is absent or a non-negative number. *)
Definition limitOk (p : Props V) : Prop :=
  match customLimit p with
  | Some c => 0 <= c
  | None => True
  end.

End View.

Arguments Box : clear implicits.

(** The events of one key press other than Shift+Tab: Tab, Return, the four
    arrows, and a printable character [c]. *)
Definition singleKeyEvents (c : string) : list Event :=
  [Tab; Return; Char c;
   (""%string, upArrowKey); (""%string, downArrowKey);
   (""%string, leftArrowKey); (""%string, rightArrowKey)].

(** * Properties *)

(** ** Windowing *)

Section Windowing.

Context {A : Type}.
Implicit Types (l : list A) (r : Z).

(** The double truncated remainder of [to-rotated] is the mathematical
    modulus. *)
Lemma normalized_steps (s n : Z) :
  0 < n -> Z.rem (Z.rem s n + n) n = s mod n.
Proof.
  intros Hn.
  assert (Hb : - n < Z.rem s n < n).
  { pose proof (Z.rem_bound_abs s n ltac:(lia)). lia. }
  rewrite Z.rem_mod_nonneg by lia.
  rewrite <- (Z.mod_add s (1 - Z.quot s n) n) by lia.
  f_equal.
  pose proof (Z.quot_rem' s n). lia.
Qed.

Lemma slice_from_0 l (e : Z) :
  0 <= e -> Js.slice l 0 (Some e) = take (Z.to_nat e) l.
Proof.
  intros He. unfold Js.slice, Js.relative.
  replace (0 <? 0) with false by reflexivity.
  rewrite (proj2 (Z.ltb_ge e 0)) by lia.
  rewrite (Z.min_l 0) by lia. rewrite Z.sub_0_r.
  change (Z.to_nat 0) with 0%nat. rewrite drop_0.
  destruct (Z.le_gt_cases e (Z.of_nat (length l))).
  - by rewrite Z.min_l by lia.
  - rewrite Z.min_r by lia. rewrite Nat2Z.id.
    rewrite (take_ge l (length l)) by lia.
    by rewrite (take_ge l (Z.to_nat e)) by lia.
Qed.

(** [arrayToRotated] rotates to the right: it is the left rotation by the
    opposite number of steps. *)
Lemma arrayToRotated_rotatedLeft l r :
  Js.arrayToRotated l r = rotatedLeft l (- r).
Proof.
  unfold Js.arrayToRotated, rotatedLeft.
  destruct (Z.eqb_spec (Z.of_nat (length l)) 0) as [E0 | E0].
  { destruct l; [| simpl in E0; lia].
    unfold rotate. by rewrite drop_nil, take_nil. }
  set (n := Z.of_nat (length l)) in *.
  assert (Hn : 0 < n) by lia.
  rewrite normalized_steps by done.
  pose proof (Z.mod_pos_bound r n Hn) as Hk.
  destruct (Z.eqb_spec (r mod n) 0) as [Ek | Ek].
  - assert (Hz : (- r) mod n = 0) by (apply Z.mod_opp_l_z; lia).
    rewrite Hz. unfold rotate. cbn [Z.to_nat].
    rewrite Nat.Div0.mod_0_l. by rewrite drop_0, take_0, app_nil_r.
  - assert (Hz : (- r) mod n = n - r mod n) by (apply Z.mod_opp_l_nz; lia).
    rewrite Hz. unfold rotate.
    rewrite Nat.mod_small by lia.
    unfold Js.slice, Js.relative. fold n.
    rewrite (proj2 (Z.ltb_lt (- (r mod n)) 0)) by lia.
    replace (0 <? 0) with false by reflexivity.
    rewrite Z.max_l by lia. rewrite (Z.min_l 0) by lia.
    replace (n + - (r mod n)) with (n - r mod n) by lia.
    rewrite Z.sub_0_r. change (Z.to_nat 0) with 0%nat. rewrite drop_0.
    f_equal.
    apply take_ge. rewrite length_drop. lia.
Qed.

Lemma length_arrayToRotated l r :
  length (Js.arrayToRotated l r) = length l.
Proof. rewrite arrayToRotated_rotatedLeft. apply length_rotate. Qed.

(** Where an element goes: position [i] moves to [(i + r) mod length]. *)
Lemma arrayToRotated_lookup l r (i : nat) :
  (i < length l)%nat ->
  Js.arrayToRotated l r
    !! Z.to_nat ((Z.of_nat i + r) mod Z.of_nat (length l)) = l !! i.
Proof.
  intros Hi. rewrite arrayToRotated_rotatedLeft. unfold rotatedLeft.
  set (n := Z.of_nat (length l)).
  assert (Hn : 0 < n) by lia.
  pose proof (Z.mod_pos_bound (- r) n Hn).
  pose proof (Z.mod_pos_bound (Z.of_nat i + r) n Hn).
  rewrite lookup_rotate_r by lia.
  f_equal. unfold rotate_nat_add. rewrite !Z2Nat.id by lia. fold n.
  rewrite <- Z.add_mod by lia.
  replace (- r + (Z.of_nat i + r)) with (Z.of_nat i) by lia.
  rewrite Z.mod_small by lia. apply Nat2Z.id.
Qed.

(** Rotation only depends on the number of steps modulo the length. *)
Lemma arrayToRotated_full_turn l r :
  Js.arrayToRotated l (r - Z.of_nat (length l)) = Js.arrayToRotated l r.
Proof.
  rewrite !arrayToRotated_rotatedLeft. unfold rotatedLeft.
  destruct l as [| x l'].
  { unfold rotate. by rewrite !drop_nil, !take_nil. }
  set (n := Z.of_nat (length (x :: l'))).
  assert (Hn : 0 < n) by (subst n; rewrite length_cons; lia).
  replace (- (r - n)) with (- r + 1 * n) by lia.
  by rewrite Z.mod_add by lia.
Qed.

End Windowing.

(** ** The handler, block by block *)

Section Blocks.

Context {V : Type}.
Implicit Types (p : Props V) (st : State) (k : Key) (cs : list (Call V)).

(** Outside the limited case the [limit] constant is the item count, so the
    [hasLimit ? limit : items.length] of the handler is [limit]. *)
Lemma limit_or_length p :
  (if hasLimit p then limit p else itemsLength p) = limit p.
Proof.
  unfold limit. by destruct (hasLimit p).
Qed.

(** The [limit] constant of the component is the window size of the data
    model. *)
Lemma limit_windowSize p : limit p = windowSize p.
Proof.
  unfold limit, windowSize, hasLimit.
  destruct (customLimit p) as [c |]; [| done].
  destruct (Z.gtb_spec (itemsLength p) c); lia.
Qed.

Lemma commit_app st cs1 cs2 :
  commit st (cs1 ++ cs2) = commit (commit st cs1) cs2.
Proof. apply fold_left_app. Qed.

Lemma commit_set st st' cs :
  commit st (setRotateIndex (rotateIndex st')
               :: setSelectedIndex (selectedIndex st') :: cs)
  = commit st' cs.
Proof. by destruct st'. Qed.

Lemma commit_nil st : commit (V := V) st [] = st.
Proof. reflexivity. Qed.

Lemma commit_highlight p st st' : commit st (highlight p st') = st.
Proof. unfold highlight. by destruct (onHighlight p). Qed.

(** What the Previous block does: it leaves the handler at the first slot
    unless the key is Shift+Tab, and otherwise sets both state variables and
    reports the highlight. *)
Lemma previousBlock_eq p st k :
  previousBlock p st k =
  if (selectedIndex st =? 0) && negb (tab k && shift k)
  then Handler.exit
  else ([setRotateIndex (rotateIndex (previousTransition p st));
         setSelectedIndex (selectedIndex (previousTransition p st))]
          ++ highlight p (previousTransition p st), Some tt).
Proof.
  unfold previousBlock, previousTransition, highlight.
  rewrite limit_or_length.
  destruct (selectedIndex st =? 0), (tab k && shift k), (onHighlight p);
    reflexivity.
Qed.

(** What the Next block does, likewise. *)
Lemma nextBlock_eq p st k :
  nextBlock p st k =
  if (selectedIndex st =? limit p - 1) && negb (tab k)
  then Handler.exit
  else ([setRotateIndex (rotateIndex (nextTransition p st));
         setSelectedIndex (selectedIndex (nextTransition p st))]
          ++ highlight p (nextTransition p st), Some tt).
Proof.
  unfold nextBlock, nextTransition, highlight.
  rewrite limit_or_length.
  destruct (selectedIndex st =? limit p - 1), (tab k), (onHighlight p);
    reflexivity.
Qed.

(** The number-key and return-key blocks call no setter and never leave the
    handler early. *)
Lemma digitBlock_commit p st input :
  snd (digitBlock p st input) = Some tt /\
  forall st0, commit st0 (fst (digitBlock p st input)) = st0.
Proof.
  unfold digitBlock, Handler.when.
  repeat match goal with |- context [if ?b then _ else _] => destruct b end;
    repeat match goal with |- context [match ?o with Some _ => _ | None => _ end] =>
      destruct o end;
    repeat match goal with |- context [if ?b then _ else _] => destruct b end;
    by split.
Qed.

Lemma returnBlock_commit p st :
  snd (returnBlock p st) = Some tt /\
  forall st0, commit st0 (fst (returnBlock p st)) = st0.
Proof. unfold returnBlock, Handler.when. by destruct (onSelect p). Qed.

(** The state an input event leads to: unchanged, or the Previous values, or
    the Next values; the last setter calls win. *)
Lemma step_cases p st input k :
  step p st input k = st
  \/ (step p st input k = previousTransition p st
      /\ ~ (selectedIndex st = 0 /\ tab k && shift k = false))
  \/ (step p st input k = nextTransition p st
      /\ ~ (selectedIndex st = limit p - 1 /\ tab k = false)).
Proof.
  unfold step, onInput. destruct (isFocused p); [| by left].
  unfold handler.
  destruct (digitBlock_commit p st input) as [Hd1 Hd2].
  destruct (returnBlock_commit p st) as [Hr1 Hr2].
  destruct (digitBlock p st input) as [dcs dr]. simpl in Hd1, Hd2. subst dr.
  destruct (returnBlock p st) as [rcs rr]. simpl in Hr1, Hr2. subst rr.
  rewrite previousBlock_eq, nextBlock_eq.
  generalize (String.eqb input "k"
              || tab k && shift k
              || Direction_eqb (direction p) column && upArrow k
              || Direction_eqb (direction p) row && leftArrow k).
  generalize (String.eqb input "j"
              || tab k
              || Direction_eqb (direction p) column && downArrow k
              || Direction_eqb (direction p) row && rightArrow k).
  intros cN cP.
  destruct (Z.eqb_spec (selectedIndex st) 0) as [E0 | E0];
    destruct (Z.eqb_spec (selectedIndex st) (limit p - 1)) as [E1 | E1];
    destruct cP, cN, (tab k), (shift k), (Js.test_1_9 input), (return_ k);
    cbn [Handler.when Handler.bind Handler.calls Handler.exit Handler.ret
         andb negb fst snd app];
    repeat first [ rewrite commit_set | rewrite commit_app
                 | rewrite commit_highlight | rewrite Hd2 | rewrite Hr2
                 | rewrite commit_nil ];
    solve [ by left
          | right; left; split; [done | intros [? ?]; done]
          | right; right; split; [done | intros [? ?]; done] ].
Qed.

End Blocks.

(** ** Tab, Shift+Tab and the plain keys *)

Section Keys.

Context {V : Type}.
Implicit Types (p : Props V) (st : State).

(** The log of a Tab event: the Next block alone. *)
Lemma calls_Tab p st :
  calls p st Tab =
  if isFocused p
  then [setRotateIndex (rotateIndex (nextTransition p st));
        setSelectedIndex (selectedIndex (nextTransition p st))]
         ++ highlight p (nextTransition p st)
  else [].
Proof.
  unfold calls, onInput, handler, Tab. cbn [fst snd].
  destruct (isFocused p); [| done].
  rewrite nextBlock_eq.
  cbn [tabKey tab shift upArrow downArrow leftArrow rightArrow return_].
  rewrite !andb_false_r.
  destruct (selectedIndex st =? limit p - 1); cbn; by rewrite !app_nil_r.
Qed.

(** The log of a Shift+Tab event: the Previous block, then the Next block,
    both computed from the state captured at render time. *)
Lemma calls_ShiftTab p st :
  calls p st ShiftTab =
  if isFocused p
  then ([setRotateIndex (rotateIndex (previousTransition p st));
         setSelectedIndex (selectedIndex (previousTransition p st))]
          ++ highlight p (previousTransition p st))
       ++ ([setRotateIndex (rotateIndex (nextTransition p st));
            setSelectedIndex (selectedIndex (nextTransition p st))]
             ++ highlight p (nextTransition p st))
  else [].
Proof.
  unfold calls, onInput, handler, ShiftTab. cbn [fst snd].
  destruct (isFocused p); [| done].
  rewrite previousBlock_eq, nextBlock_eq.
  cbn [shiftTabKey tab shift upArrow downArrow leftArrow rightArrow return_].
  rewrite !andb_false_r.
  destruct (selectedIndex st =? 0), (selectedIndex st =? limit p - 1);
    cbn; by rewrite !app_nil_r.
Qed.

Lemma after_Tab p st :
  isFocused p = true -> after p st Tab = nextTransition p st.
Proof.
  intros Hf. unfold after, step. fold (calls p st Tab).
  rewrite calls_Tab, Hf.
  by rewrite commit_app, commit_set, commit_nil, commit_highlight.
Qed.

(** Shift+Tab ends in the state Tab ends in: the setter calls of the Next
    block come last. *)
Lemma after_ShiftTab p st : after p st ShiftTab = after p st Tab.
Proof.
  unfold after, step. fold (calls p st Tab) (calls p st ShiftTab).
  rewrite calls_ShiftTab, calls_Tab.
  destruct (isFocused p); [| done].
  by rewrite !commit_app, !commit_set, !commit_nil, !commit_highlight.
Qed.

(** A plain Previous key at the first slot does nothing at all. *)
Lemma plainPrevious_at_first p st e :
  e ∈ plainPrevious (direction p) ->
  selectedIndex st = 0 ->
  calls p st e = [] /\ after p st e = st.
Proof.
  intros He Hs.
  assert (Hc : calls p st e = []).
  { unfold calls, onInput, handler. destruct (isFocused p); [| done].
    rewrite previousBlock_eq, Hs.
    unfold plainPrevious in He. revert He.
    destruct (direction p); rewrite !elem_of_cons;
      (intros [-> | [-> | He]]; [| | by apply elem_of_nil in He]);
      reflexivity. }
  split; [done |]. unfold after, step. fold (calls p st e). by rewrite Hc.
Qed.

(** A plain Next key at the last slot does nothing at all. *)
Lemma plainNext_at_last p st e :
  e ∈ plainNext (direction p) ->
  selectedIndex st = limit p - 1 ->
  calls p st e = [] /\ after p st e = st.
Proof.
  intros He Hs.
  assert (Hc : calls p st e = []).
  { unfold calls, onInput, handler. destruct (isFocused p); [| done].
    rewrite nextBlock_eq, Hs, Z.eqb_refl.
    unfold plainNext in He. revert He.
    destruct (direction p); rewrite !elem_of_cons;
      (intros [-> | [-> | He]]; [| | by apply elem_of_nil in He]);
      reflexivity. }
  split; [done |]. unfold after, step. fold (calls p st e). by rewrite Hc.
Qed.

End Keys.

(** ** Classification of an event carrying both tab and shift *)

Section Classification.

Context {V : Type}.
Implicit Types (p : Props V) (st : State).

Lemma highlighted_app (cs1 cs2 : list (Call V)) :
  highlighted (cs1 ++ cs2) = highlighted cs1 ++ highlighted cs2.
Proof. apply omap_app. Qed.

Lemma highlighted_highlight p st' :
  highlighted (highlight p st') =
  if onHighlight p
  then [Js.index (slicedItems p (rotateIndex st')) (selectedIndex st')]
  else [].
Proof. unfold highlight. by destruct (onHighlight p). Qed.

(** C1 (as the code has it): an event with both the tab and the shift flag
    matches the Previous test and then the Next test as well. The handler
    runs both blocks on the state captured at render time: [onHighlight] is
    called twice, first for the Previous target and then for the Next
    target, and the state the event leaves is the one a plain Tab leaves. *)
Theorem shift_tab_runs_previous_then_next p st :
  highlighted (calls p st ShiftTab) =
    (if isFocused p && onHighlight p
     then [Js.index (slicedItems p (rotateIndex (previousTransition p st)))
                    (selectedIndex (previousTransition p st));
           Js.index (slicedItems p (rotateIndex (nextTransition p st)))
                    (selectedIndex (nextTransition p st))]
     else [])
  /\ after p st ShiftTab = after p st Tab.
Proof.
  split; [| apply after_ShiftTab].
  rewrite calls_ShiftTab.
  destruct (isFocused p); [| done].
  rewrite !highlighted_app, !highlighted_highlight.
  by destruct (onHighlight p).
Qed.

(** C4 (as the code has it): with no limit active and three items or more,
    Shift+Tab at the first slot leaves [rotateIndex] unchanged and moves
    [selectedIndex] to 1, which is not the last index. *)
Theorem shift_tab_at_first_without_limit p (r : Z) :
  isFocused p = true ->
  hasLimit p = false ->
  3 <= itemsLength p ->
  after p {| rotateIndex := r; selectedIndex := 0 |} ShiftTab
    = {| rotateIndex := r; selectedIndex := 1 |}
  /\ selectedIndex
       (after p {| rotateIndex := r; selectedIndex := 0 |} ShiftTab)
     <> itemsLength p - 1.
Proof.
  intros Hf Hl Hn.
  assert (E : after p {| rotateIndex := r; selectedIndex := 0 |} ShiftTab
              = {| rotateIndex := r; selectedIndex := 1 |}).
  { rewrite after_ShiftTab, after_Tab by done.
    unfold nextTransition. rewrite <- (limit_or_length p), Hl.
    cbn [selectedIndex rotateIndex].
    destruct (Z.eqb_spec 0 (itemsLength p - 1)); [lia | done]. }
  split; [done |]. rewrite E. cbn. lia.
Qed.

(** C6 (as the code has it): with a limit active, Shift+Tab at the first
    visible slot never increases [rotateIndex] by 1: it leaves [rotateIndex]
    unchanged and moves [selectedIndex] to 1 (with a window of one slot it
    decreases [rotateIndex] by 1 instead). Tab at the last visible slot
    decreases [rotateIndex] by 1 and keeps [selectedIndex]. *)
Theorem shift_tab_at_first_with_limit p (r : Z) :
  isFocused p = true ->
  hasLimit p = true ->
  1 <= limit p ->
  after p {| rotateIndex := r; selectedIndex := 0 |} ShiftTab
    = (if limit p =? 1
       then {| rotateIndex := r - 1; selectedIndex := 0 |}
       else {| rotateIndex := r; selectedIndex := 1 |})
  /\ rotateIndex (after p {| rotateIndex := r; selectedIndex := 0 |} ShiftTab)
     <> r + 1
  /\ after p {| rotateIndex := r; selectedIndex := limit p - 1 |} Tab
     = {| rotateIndex := r - 1; selectedIndex := limit p - 1 |}.
Proof.
  intros Hf Hl Hn.
  assert (E : after p {| rotateIndex := r; selectedIndex := 0 |} ShiftTab
              = (if limit p =? 1
                 then {| rotateIndex := r - 1; selectedIndex := 0 |}
                 else {| rotateIndex := r; selectedIndex := 1 |})).
  { rewrite after_ShiftTab, after_Tab by done.
    unfold nextTransition. cbn [selectedIndex rotateIndex]. rewrite Hl.
    destruct (Z.eqb_spec 0 (limit p - 1)), (Z.eqb_spec (limit p) 1);
      first [done | lia]. }
  split; [done | split].
  - rewrite E. destruct (limit p =? 1); cbn [rotateIndex]; lia.
  - rewrite after_Tab by done.
    unfold nextTransition. cbn [selectedIndex rotateIndex].
    by rewrite Z.eqb_refl, Hl.
Qed.

End Classification.

(** Three items, no limit, first slot: Shift+Tab reports C, then B, and
    ends on B. *)
Example shift_tab_ABC :
  calls (props ABC None) (at_ 0 0) ShiftTab
    = [setRotateIndex 1; setSelectedIndex 2;
       callOnHighlight (Some (item "C"));
       setRotateIndex 0; setSelectedIndex 1;
       callOnHighlight (Some (item "B"))]
  /\ after (props ABC None) (at_ 0 0) ShiftTab = at_ 0 1.
Proof. split; reflexivity. Qed.

(** Five items, limit 3, first slot: Shift+Tab reports E, then B, and ends
    on the unrotated window with B highlighted. *)
Example shift_tab_ABCDE :
  calls (props ABCDE (Some 3)) (at_ 0 0) ShiftTab
    = [setRotateIndex 1; setSelectedIndex 0;
       callOnHighlight (Some (item "E"));
       setRotateIndex 0; setSelectedIndex 1;
       callOnHighlight (Some (item "B"))]
  /\ after (props ABCDE (Some 3)) (at_ 0 0) ShiftTab = at_ 0 1.
Proof. split; reflexivity. Qed.

Lemma shift_tab_at_first_without_limit_witness :
  after (props ABC None) (at_ 0 0) ShiftTab = at_ 0 1
  /\ selectedIndex (after (props ABC None) (at_ 0 0) ShiftTab)
     <> itemsLength (props ABC None) - 1.
Proof.
  apply (shift_tab_at_first_without_limit (props ABC None) 0);
    [reflexivity | reflexivity | vm_compute; discriminate].
Defined.

Lemma shift_tab_at_first_with_limit_witness :
  after (props ABCDE (Some 3)) (at_ 0 0) ShiftTab = at_ 0 1
  /\ rotateIndex (after (props ABCDE (Some 3)) (at_ 0 0) ShiftTab) <> 0 + 1
  /\ after (props ABCDE (Some 3)) (at_ 0 2) Tab = at_ (-1) 2.
Proof.
  apply (shift_tab_at_first_with_limit (props ABCDE (Some 3)) 0);
    [reflexivity | reflexivity | vm_compute; discriminate].
Defined.

(** ** The empty list *)

Section EmptyList.

Context {V : Type}.
Implicit Types (p : Props V) (st : State).

Lemma slicedItems_nil p (r : Z) : items p = [] -> slicedItems p r = [].
Proof.
  intros E. unfold slicedItems. rewrite E.
  destruct (hasLimit p); [| done].
  change (Js.arrayToRotated (@nil (Item V)) r) with (@nil (Item V)).
  unfold Js.slice. by rewrite drop_nil, take_nil.
Qed.

Lemma limit_nil p : items p = [] -> limit p <= 0.
Proof.
  intros E. rewrite limit_windowSize. unfold windowSize, itemsLength.
  rewrite E. cbn [length Z.of_nat]. destruct (customLimit p); lia.
Qed.

(** C2 (as the code has it): on an empty list the Return key still calls
    [onSelect], with [undefined], and the key j still moves
    [selectedIndex] from 0 to 1 and calls [onHighlight] with [undefined]. *)
Theorem empty_list_still_calls_back p (r : Z) :
  items p = [] ->
  isFocused p = true ->
  onSelect p = true ->
  onHighlight p = true ->
  calls p {| rotateIndex := r; selectedIndex := 0 |} Return
    = [callOnSelect None]
  /\ calls p {| rotateIndex := r; selectedIndex := 0 |} (Char "j")
     = [setRotateIndex r; setSelectedIndex 1; callOnHighlight None]
  /\ after p {| rotateIndex := r; selectedIndex := 0 |} (Char "j")
     = {| rotateIndex := r; selectedIndex := 1 |}.
Proof.
  intros E Hf Hs Hh.
  pose proof (limit_nil p E) as Hl.
  assert (Hj : calls p {| rotateIndex := r; selectedIndex := 0 |} (Char "j")
               = [setRotateIndex r; setSelectedIndex 1; callOnHighlight None]).
  { unfold calls, onInput, handler. rewrite Hf, nextBlock_eq.
    unfold highlight, nextTransition. rewrite Hh.
    cbn [selectedIndex rotateIndex].
    destruct (Z.eqb_spec 0 (limit p - 1)); [lia |].
    rewrite slicedItems_nil by done.
    by destruct (direction p). }
  split; [| split; [done |]].
  - unfold calls, onInput, handler, returnBlock. rewrite Hf, Hs.
    rewrite slicedItems_nil by done.
    by destruct (direction p).
  - unfold after, step. fold (calls p {| rotateIndex := r; selectedIndex := 0 |} (Char "j")).
    by rewrite Hj.
Qed.

End EmptyList.

Lemma empty_list_still_calls_back_witness :
  calls (props [] None) (at_ (-1) 0) Return = [callOnSelect None]
  /\ calls (props [] None) (at_ (-1) 0) (Char "j")
     = [setRotateIndex (-1); setSelectedIndex 1; callOnHighlight None]
  /\ after (props [] None) (at_ (-1) 0) (Char "j") = at_ (-1) 1.
Proof.
  apply (empty_list_still_calls_back (props [] None) (-1)); reflexivity.
Defined.

(** The state the component starts in on an empty list. *)
Example initialState_empty : initialState (props [] None) = at_ (-1) 0.
Proof. reflexivity. Qed.

(** ** The selection invariant *)

Section Invariant.

Context {V : Type}.
Implicit Types (p : Props V) (st : State).

Lemma previousTransition_valid p st k :
  validSelection p st ->
  ~ (selectedIndex st = 0 /\ tab k && shift k = false) ->
  validSelection p (previousTransition p st).
Proof.
  unfold validSelection, previousTransition. rewrite <- limit_windowSize.
  intros Hv _.
  destruct (Z.eqb_spec (selectedIndex st) 0), (hasLimit p);
    cbn [selectedIndex]; lia.
Qed.

Lemma nextTransition_valid p st :
  validSelection p st -> validSelection p (nextTransition p st).
Proof.
  unfold validSelection, nextTransition. rewrite <- limit_windowSize.
  intros Hv.
  destruct (Z.eqb_spec (selectedIndex st) (limit p - 1)), (hasLimit p);
    cbn [selectedIndex]; lia.
Qed.

(** C3 (amended): for a non-empty list, a limit that is absent or at least
    1 and a non-negative [initialIndex], the initial [selectedIndex] is an
    index into the visible window, and every input event, whatever its
    payload and flags, keeps it one. *)
Theorem selection_stays_in_window p :
  items p <> [] ->
  (forall c, customLimit p = Some c -> 1 <= c) ->
  0 <= initialIndex p ->
  validSelection p (initialState p)
  /\ forall st input k,
       validSelection p st -> validSelection p (step p st input k).
Proof.
  intros Hne Hc Hi. split.
  - assert (Hw : 1 <= windowSize p).
    { unfold windowSize, itemsLength.
      destruct (items p) as [| x l]; [done |]. rewrite length_cons.
      destruct (customLimit p) as [c |]; [specialize (Hc c eq_refl) |]; lia. }
    unfold validSelection, initialState, lastIndex.
    rewrite limit_windowSize. cbn [selectedIndex].
    destruct (Z.eqb_spec (initialIndex p) 0);
      destruct (Z.gtb_spec (initialIndex p) (windowSize p - 1));
      cbn [negb]; lia.
  - intros st input k Hv.
    destruct (step_cases p st input k) as [-> | [[-> Hn] | [-> Hn]]].
    + done.
    + by apply (previousTransition_valid p st k).
    + by apply nextTransition_valid.
Qed.

End Invariant.

Lemma selection_stays_in_window_witness :
  validSelection (props ABCDE (Some 3)) (initialState (props ABCDE (Some 3)))
  /\ forall st input k,
       validSelection (props ABCDE (Some 3)) st ->
       validSelection (props ABCDE (Some 3))
                      (step (props ABCDE (Some 3)) st input k).
Proof.
  apply (selection_stays_in_window (props ABCDE (Some 3))).
  - discriminate.
  - intros c [= <-]. lia.
  - reflexivity.
Defined.

(** C3 as stated fails at construction: on an empty list there is no valid
    index at all; a negative [initialIndex] is kept as it is; and a limit of
    0 leaves an empty window. *)
Lemma selection_invariant_fails_at_construction :
  ~ validSelection (props [] None) (initialState (props [] None))
  /\ ~ validSelection (propsFrom ABC None (-1))
                      (initialState (propsFrom ABC None (-1)))
  /\ ~ validSelection (props ABC (Some 0)) (initialState (props ABC (Some 0))).
Proof.
  repeat split; intros [H1 H2]; vm_compute in H1, H2;
    first [discriminate | by apply H1].
Qed.

(** ** The visible slice *)

Section VisibleSlice.

Context {V : Type}.
Implicit Types (p : Props V) (st : State) (r : Z).

Lemma hasLimit_false p :
  match customLimit p with
  | None => True
  | Some c => itemsLength p <= c
  end -> hasLimit p = false.
Proof.
  unfold hasLimit. destruct (customLimit p) as [c |]; [| done].
  intros Hc. destruct (Z.gtb_spec (itemsLength p) c); [lia | done].
Qed.

Lemma limit_Some p (c : Z) :
  customLimit p = Some c -> c < itemsLength p ->
  hasLimit p = true /\ limit p = c.
Proof.
  intros Hc Hlt. unfold limit, hasLimit. rewrite Hc.
  destruct (Z.gtb_spec (itemsLength p) c); [| lia]. split; [done | lia].
Qed.

Lemma slicedItems_limit p (c : Z) r :
  customLimit p = Some c -> 0 <= c < itemsLength p ->
  slicedItems p r = take (Z.to_nat c) (Js.arrayToRotated (items p) r).
Proof.
  intros Hc Hb. destruct (limit_Some p c Hc) as [Hl Hlim]; [lia |].
  unfold slicedItems. rewrite Hl, Hlim. apply slice_from_0. lia.
Qed.

Lemma length_slicedItems p (c : Z) r :
  customLimit p = Some c -> 0 <= c < itemsLength p ->
  length (slicedItems p r) = Z.to_nat c.
Proof.
  intros Hc Hb. rewrite (slicedItems_limit p c) by done.
  rewrite length_take, length_arrayToRotated. unfold itemsLength in Hb. lia.
Qed.

(** C5 (amended): when a limit applies, the visible slice is the list
    rotated to the right by [rotateIndex] positions, i.e. to the left by
    [- rotateIndex]: the element at position [i] moves to position
    [(i + rotateIndex) mod itemCount]; the rotated list is cut to its first
    [limit] elements and the slice has length [min limit itemCount]. When no
    limit applies the slice is the full list, whatever [rotateIndex] is. *)
Theorem visible_slice_is_right_rotation p r :
  (forall c, customLimit p = Some c -> 0 <= c < itemsLength p ->
     slicedItems p r = take (Z.to_nat c) (rotatedLeft (items p) (- r))
     /\ Z.of_nat (length (slicedItems p r)) = Z.min c (itemsLength p)
     /\ forall i : nat, (i < length (items p))%nat ->
          Js.arrayToRotated (items p) r
            !! Z.to_nat ((Z.of_nat i + r) mod itemsLength p)
          = items p !! i)
  /\ (match customLimit p with
      | None => True
      | Some c => itemsLength p <= c
      end -> slicedItems p r = items p).
Proof.
  split.
  - intros c Hc Hb. split; [| split].
    + rewrite (slicedItems_limit p c) by done.
      by rewrite arrayToRotated_rotatedLeft.
    + rewrite (length_slicedItems p c) by done. lia.
    + intros i Hi. by apply arrayToRotated_lookup.
  - intros Hno. unfold slicedItems. by rewrite hasLimit_false.
Qed.

(** After a full turn of the rotation the window shows the same items. *)
Lemma slicedItems_full_turn p r :
  slicedItems p (r - itemsLength p) = slicedItems p r.
Proof.
  unfold slicedItems, itemsLength. by rewrite arrayToRotated_full_turn.
Qed.

Lemma repeat_event_S p e (n : nat) st :
  repeat_event p e (S n) st = after p (repeat_event p e n st) e.
Proof. reflexivity. Qed.

(** The state after [n] Tab events under a limit, from a selection inside
    the window: the pointer walks to the last slot, then the window
    rotates. *)
Lemma repeat_Tab p (n : nat) st :
  isFocused p = true ->
  hasLimit p = true ->
  selectedIndex st <= limit p - 1 ->
  repeat_event p Tab n st
  = {| rotateIndex :=
         rotateIndex st
         - Z.max 0 (Z.of_nat n - (limit p - 1 - selectedIndex st));
       selectedIndex := Z.min (selectedIndex st + Z.of_nat n) (limit p - 1) |}.
Proof.
  intros Hf Hl Hv.
  induction n as [| n IH].
  - destruct st as [r s]. cbn [rotateIndex selectedIndex] in *.
    unfold repeat_event. cbn [Nat.iter nat_rect]. f_equal; lia.
  - rewrite repeat_event_S, IH.
    rewrite after_Tab by done. unfold nextTransition. rewrite Hl.
    cbn [selectedIndex rotateIndex].
    destruct (Z.eqb_spec (Z.min (selectedIndex st + Z.of_nat n) (limit p - 1))
                         (limit p - 1)); f_equal; lia.
Qed.

(** The log of a plain Next key. *)
Lemma calls_plainNext p st e :
  e ∈ plainNext (direction p) ->
  calls p st e =
  if isFocused p && negb (selectedIndex st =? limit p - 1)
  then [setRotateIndex (rotateIndex st);
        setSelectedIndex (selectedIndex st + 1)]
         ++ highlight p {| rotateIndex := rotateIndex st;
                           selectedIndex := selectedIndex st + 1 |}
  else [].
Proof.
  intros He. unfold calls, onInput, handler.
  destruct (isFocused p); [| done].
  rewrite nextBlock_eq. unfold nextTransition.
  unfold plainNext in He. revert He.
  destruct (direction p); rewrite !elem_of_cons;
    (intros [-> | [-> | He]]; [| | by apply elem_of_nil in He]);
    destruct (selectedIndex st =? limit p - 1);
    cbn [Char fst snd];
    change (Js.test_1_9 "j") with false;
    change (Js.test_1_9 "") with false;
    cbn; by rewrite ?app_nil_r.
Qed.

(** A plain Next key never changes [rotateIndex]. *)
Lemma plainNext_rotateIndex p e st :
  e ∈ plainNext (direction p) ->
  rotateIndex (after p st e) = rotateIndex st.
Proof.
  intros He. unfold after, step. fold (calls p st e).
  rewrite calls_plainNext by done.
  destruct (isFocused p && negb (selectedIndex st =? limit p - 1)); [| done].
  rewrite commit_app.
  rewrite (commit_set st {| rotateIndex := rotateIndex st;
                            selectedIndex := selectedIndex st + 1 |}).
  by rewrite commit_nil, commit_highlight.
Qed.

(** C7 (amended): with a limit [L] below the item count the visible slice
    has exactly [L] elements. Tab pressed [itemCount] times from a valid
    state moves the selection to the last slot and decreases [rotateIndex]
    by [itemCount] minus the distance walked; started at the last slot,
    [rotateIndex] ends [itemCount] lower, which is the same rotation: the
    visible slice is the original one. Plain Next keys never change
    [rotateIndex]. *)
Theorem tab_full_cycle p (L : Z) :
  customLimit p = Some L ->
  0 <= L < itemsLength p ->
  isFocused p = true ->
  (forall r, length (slicedItems p r) = Z.to_nat L)
  /\ (forall st, validSelection p st ->
        repeat_event p Tab (length (items p)) st
        = {| rotateIndex :=
               rotateIndex st
               - (itemsLength p - (L - 1 - selectedIndex st));
             selectedIndex := L - 1 |})
  /\ (forall r,
        repeat_event p Tab (length (items p))
          {| rotateIndex := r; selectedIndex := L - 1 |}
        = {| rotateIndex := r - itemsLength p; selectedIndex := L - 1 |}
        /\ slicedItems p (r - itemsLength p) = slicedItems p r)
  /\ (forall e (n : nat) st,
        e ∈ plainNext (direction p) ->
        rotateIndex (repeat_event p e n st) = rotateIndex st).
Proof.
  intros Hc Hb Hf.
  destruct (limit_Some p L Hc) as [Hl Hlim]; [lia |].
  assert (Hcycle : forall st, validSelection p st ->
            repeat_event p Tab (length (items p)) st
            = {| rotateIndex :=
                   rotateIndex st
                   - (itemsLength p - (L - 1 - selectedIndex st));
                 selectedIndex := L - 1 |}).
  { intros st Hv.
    unfold validSelection in Hv. rewrite <- limit_windowSize, Hlim in Hv.
    rewrite repeat_Tab by (rewrite ?Hlim; first [done | lia]).
    rewrite Hlim. fold (itemsLength p). f_equal; lia. }
  split; [| split; [done | split]].
  - intros r. by apply length_slicedItems.
  - intros r. split; [| apply slicedItems_full_turn].
    rewrite repeat_Tab by (rewrite ?Hlim; cbn [selectedIndex]; first [done | lia]).
    rewrite Hlim. fold (itemsLength p). cbn [rotateIndex selectedIndex].
    f_equal; lia.
  - intros e n st He. induction n as [| n IH]; [done |].
    by rewrite repeat_event_S, plainNext_rotateIndex.
Qed.

End VisibleSlice.

Lemma tab_full_cycle_witness :
  (forall r, length (slicedItems (props ABCDE (Some 3)) r) = Z.to_nat 3)
  /\ (forall st, validSelection (props ABCDE (Some 3)) st ->
        repeat_event (props ABCDE (Some 3)) Tab (length ABCDE) st
        = {| rotateIndex := rotateIndex st - (5 - (3 - 1 - selectedIndex st));
             selectedIndex := 3 - 1 |})
  /\ (forall r,
        repeat_event (props ABCDE (Some 3)) Tab (length ABCDE)
          {| rotateIndex := r; selectedIndex := 3 - 1 |}
        = {| rotateIndex := r - 5; selectedIndex := 3 - 1 |}
        /\ slicedItems (props ABCDE (Some 3)) (r - 5)
           = slicedItems (props ABCDE (Some 3)) r)
  /\ (forall e (n : nat) st,
        e ∈ plainNext column ->
        rotateIndex (repeat_event (props ABCDE (Some 3)) e n st)
        = rotateIndex st).
Proof.
  apply (tab_full_cycle (props ABCDE (Some 3)) 3);
    [reflexivity | vm_compute; split; [discriminate | reflexivity]
    | reflexivity].
Defined.

(** C7 as stated fails: five Tab events from the last slot of a window of 3
    over 5 items leave [rotateIndex] at -5, not at its original value 0. *)
Lemma tab_cycle_does_not_restore_rotateIndex :
  repeat_event (props ABCDE (Some 3)) Tab 5 (at_ 0 2) = at_ (-5) 2
  /\ rotateIndex (repeat_event (props ABCDE (Some 3)) Tab 5 (at_ 0 2))
     <> rotateIndex (at_ 0 2).
Proof. split; [reflexivity | vm_compute; discriminate]. Qed.

(** C5 as stated fails: rotated by 1, the window over A..E shows E, A, B,
    where the left rotation shows B, C, D; and without a limit a Tab at the
    last slot moves [rotateIndex] from 0 to -1. *)
Lemma visible_slice_is_not_left_rotation :
  slicedItems (props ABCDE (Some 3)) 1 = [item "E"; item "A"; item "B"]
  /\ take 3 (rotatedLeft ABCDE 1) = [item "B"; item "C"; item "D"]
  /\ slicedItems (props ABCDE (Some 3)) 1 <> take 3 (rotatedLeft ABCDE 1)
  /\ hasLimit (props ABC None) = false
  /\ rotateIndex (after (props ABC None) (at_ 0 2) Tab) <> 0.
Proof.
  repeat split; try reflexivity; vm_compute; discriminate.
Qed.

(** ** Number keys *)

Section DirectSelect.

Context {V : Type}.
Implicit Types (p : Props V) (st : State).

(** The payload of the digit key [n]: it passes the regular expression,
    parses back to [n], and is neither k nor j. *)
Lemma Digit_input (n : Z) :
  1 <= n <= 9 ->
  Js.test_1_9 (fst (Digit n)) = true
  /\ Js.parseInt10 (fst (Digit n)) = n
  /\ String.eqb (fst (Digit n)) "k" = false
  /\ String.eqb (fst (Digit n)) "j" = false
  /\ snd (Digit n) = noKey.
Proof.
  intros Hn.
  assert (Hcases : n = 1 \/ n = 2 \/ n = 3 \/ n = 4 \/ n = 5
                   \/ n = 6 \/ n = 7 \/ n = 8 \/ n = 9) by lia.
  repeat (destruct Hcases as [-> | Hcases]; [by vm_compute |]).
  subst n. by vm_compute.
Qed.

(** C9: the digit key [n] (1 to 9), with [onSelect] registered and a
    visible slice of [m] items, calls [onSelect] with the item at slot
    [n - 1] of the slice when [n - 1 < m] and calls nothing otherwise; no
    setter is called, so [rotateIndex] and [selectedIndex] stay as they
    are. *)
Theorem digit_key_selects_visible_slot p st (n : Z) :
  1 <= n <= 9 ->
  isFocused p = true ->
  onSelect p = true ->
  let visible := slicedItems p (rotateIndex st) in
  (n - 1 < Z.of_nat (length visible) ->
   exists selectedItem,
     visible !! Z.to_nat (n - 1) = Some selectedItem
     /\ calls p st (Digit n) = [callOnSelect (Some selectedItem)])
  /\ (Z.of_nat (length visible) <= n - 1 -> calls p st (Digit n) = [])
  /\ after p st (Digit n) = st.
Proof.
  intros Hn Hf Hs visible.
  destruct (Digit_input n Hn) as (Ht & Hp & Hk & Hj & Hkey).
  assert (Hcalls : calls p st (Digit n) =
                   match visible !! Z.to_nat (n - 1) with
                   | Some selectedItem => [callOnSelect (Some selectedItem)]
                   | None => []
                   end).
  { unfold calls, onInput, handler. rewrite Hf, Ht, Hk, Hj, Hkey.
    cbn [noKey tab shift upArrow downArrow leftArrow rightArrow return_].
    rewrite !andb_false_r. cbn [orb Handler.when Handler.bind Handler.ret].
    unfold digitBlock. rewrite Hp, Hs. fold visible.
    unfold Js.index.
    rewrite (proj2 (Z.geb_le (n - 1) 0)) by lia.
    rewrite (proj2 (Z.ltb_ge (n - 1) 0)) by lia.
    destruct (Z.ltb_spec (n - 1) (Z.of_nat (length visible))) as [Hlt | Hge].
    - destruct (visible !! Z.to_nat (n - 1)) eqn:E; reflexivity.
    - rewrite lookup_ge_None_2 by lia. reflexivity. }
  split; [| split].
  - intros Hlt.
    destruct (lookup_lt_is_Some_2 visible (Z.to_nat (n - 1))) as [x Hx];
      [lia |].
    exists x. split; [done |]. by rewrite Hcalls, Hx.
  - intros Hge. rewrite Hcalls. by rewrite lookup_ge_None_2 by lia.
  - unfold after, step. fold (calls p st (Digit n)). rewrite Hcalls.
    by destruct (visible !! Z.to_nat (n - 1)).
Qed.

End DirectSelect.

Lemma digit_key_selects_visible_slot_witness :
  let visible := slicedItems (props ABCDE (Some 3)) (rotateIndex (at_ (-1) 2)) in
  (2 - 1 < Z.of_nat (length visible) ->
   exists selectedItem,
     visible !! Z.to_nat (2 - 1) = Some selectedItem
     /\ calls (props ABCDE (Some 3)) (at_ (-1) 2) (Digit 2)
        = [callOnSelect (Some selectedItem)])
  /\ (Z.of_nat (length visible) <= 2 - 1 ->
      calls (props ABCDE (Some 3)) (at_ (-1) 2) (Digit 2) = [])
  /\ after (props ABCDE (Some 3)) (at_ (-1) 2) (Digit 2) = at_ (-1) 2.
Proof.
  apply (digit_key_selects_visible_slot (props ABCDE (Some 3)) (at_ (-1) 2) 2);
    [lia | reflexivity | reflexivity].
Defined.

(** With the window over A..E showing B, C, D: key 2 selects C, key 4
    selects nothing. *)
Example digit_keys_BCD :
  calls (props ABCDE (Some 3)) (at_ (-1) 2) (Digit 2)
    = [callOnSelect (Some (item "C"))]
  /\ calls (props ABCDE (Some 3)) (at_ (-1) 2) (Digit 4) = [].
Proof. split; reflexivity. Qed.

(** ** Reset on change of the value sequence *)

Section Reset.

Context {V : Type} {deepEq : DeepStrictEqual V}.
Implicit Types (m : Mounted V) (previous new : list (Item V)).

Lemma arrayDeepStrictEqual_Forall2 (a b : list V) :
  arrayDeepStrictEqual a b = true
  <-> Forall2 (fun x y => isDeepStrictEqual x y = true) a b.
Proof.
  revert b. induction a as [| x a IH]; intros [| y b]; cbn.
  - split; [constructor | done].
  - split; [done | inversion 1].
  - split; [done | inversion 1].
  - rewrite andb_true_iff, IH. split.
    + intros [? ?]. by constructor.
    + inversion 1; by subst.
Qed.

Lemma isDeepStrictEqual_values previous new :
  isDeepStrictEqual (map value previous) (map value new) = true
  <-> sameValues previous new.
Proof.
  unfold sameValues.
  change (isDeepStrictEqual (map value previous) (map value new))
    with (arrayDeepStrictEqual (map value previous) (map value new)).
  rewrite arrayDeepStrictEqual_Forall2.
  change (map value previous) with (value <$> previous).
  change (map value new) with (value <$> new).
  by rewrite Forall2_fmap.
Qed.

Lemma render_same m new :
  sameValues (previousItems m) new -> state (render m new) = state m.
Proof.
  intros Hs. apply isDeepStrictEqual_values in Hs.
  unfold render, itemsEffect. cbn [state]. by rewrite Hs.
Qed.

Lemma render_differs m new :
  ~ sameValues (previousItems m) new ->
  state (render m new) = {| rotateIndex := 0; selectedIndex := 0 |}.
Proof.
  intros Hs. rewrite <- isDeepStrictEqual_values in Hs.
  unfold render, itemsEffect. cbn [state].
  by destruct (isDeepStrictEqual (map value (previousItems m)) (map value new)).
Qed.

(** Deeply equal value sequences have the same length. *)
Lemma sameValues_length previous new :
  sameValues previous new -> length previous = length new.
Proof. apply Forall2_length. Qed.

(** Under a reflexive equality the effect of the first render keeps the
    initial state. *)
Lemma mount_state (p : Props V) :
  (forall v : V, isDeepStrictEqual v v = true) ->
  state (mount p) = initialState p.
Proof.
  intros Hrefl. unfold mount. apply render_same. cbn [previousItems].
  unfold sameValues. induction (items p); constructor; auto.
Qed.

(** A render keeps the selection inside the window, as long as the new list
    is not empty and the limit, unchanged, is absent or positive. *)
Lemma render_keeps_selection_valid (p p' : Props V) m :
  previousItems m = items p ->
  customLimit p' = customLimit p ->
  items p' <> [] ->
  (forall c, customLimit p' = Some c -> 1 <= c) ->
  validSelection p (state m) ->
  validSelection p' (state (render m (items p'))).
Proof.
  intros Hprev Hlim Hne Hc Hv.
  assert (Hdec : {sameValues (previousItems m) (items p')}
                 + {~ sameValues (previousItems m) (items p')}).
  { destruct (isDeepStrictEqual (map value (previousItems m))
                                (map value (items p'))) eqn:E.
    - left. by apply isDeepStrictEqual_values.
    - right. rewrite <- isDeepStrictEqual_values. congruence. }
  destruct Hdec as [Hs | Hs].
  - rewrite render_same by done.
    apply sameValues_length in Hs. rewrite Hprev in Hs.
    unfold validSelection, windowSize, itemsLength in *.
    by rewrite Hlim, <- Hs.
  - rewrite render_differs by done.
    unfold validSelection, windowSize, itemsLength. cbn [selectedIndex].
    destruct (items p') as [| x l]; [done |]. rewrite length_cons.
    destruct (customLimit p') as [c |]; [specialize (Hc c eq_refl) |]; lia.
Qed.

(** C8: on a render with a new items list, when the sequence of values
    differs from the one of the previous render (another length, or a
    value that is not deeply equal at some index) both [rotateIndex] and
    [selectedIndex] become 0; when it is the same, labels and keys being
    free to change, both are left as they are. The new list becomes the
    previous one of the next render. *)
Theorem reset_exactly_when_values_differ m new :
  (~ sameValues (previousItems m) new ->
   state (render m new) = {| rotateIndex := 0; selectedIndex := 0 |})
  /\ (sameValues (previousItems m) new -> state (render m new) = state m)
  /\ previousItems (render m new) = new.
Proof.
  split; [apply render_differs | split; [apply render_same | done]].
Qed.

End Reset.

(** Deep equality of the two object fixtures: contents agree although the
    objects are not the same and the property order differs. *)
Example users_deep_equal :
  strictEquals (user 1 7 "ada")
    (JsObject 11 [("name"%string, JsString "ada"); ("id"%string, JsNumber 7)])
  = false
  /\ isDeepStrictEqual (user 1 7 "ada")
       (JsObject 11 [("name"%string, JsString "ada");
                     ("id"%string, JsNumber 7)])
     = true.
Proof. split; reflexivity. Qed.

(** C10: the reset check compares the two value sequences by deep
    equality. When the new items carry values that are deeply equal, index
    by index, to those of the previous render, the state is kept, also when
    every item and every value is a new object. *)
Theorem deeply_equal_values_keep_state
  (m : Mounted JsValue) (new : list (Item JsValue)) :
  Forall2 (fun a b => jsDeepStrictEqual (value a) (value b) = true)
          (previousItems m) new ->
  rotateIndex (state (render m new)) = rotateIndex (state m)
  /\ selectedIndex (state (render m new)) = selectedIndex (state m).
Proof.
  intros Hs.
  by rewrite (render_same (deepEq := DeepStrictEqual_JsValue) m new Hs).
Qed.

Lemma deeply_equal_values_keep_state_witness :
  Forall2 (fun a b => strictEquals (value a) (value b) = false)
          usersBefore usersAfter
  /\ rotateIndex
       (state (render {| state := at_ (-1) 1; previousItems := usersBefore |}
                      usersAfter)) = -1
  /\ selectedIndex
       (state (render {| state := at_ (-1) 1; previousItems := usersBefore |}
                      usersAfter)) = 1.
Proof.
  split.
  - repeat constructor.
  - apply (deeply_equal_values_keep_state
             {| state := at_ (-1) 1; previousItems := usersBefore |}
             usersAfter).
    repeat constructor.
Defined.

(** Reordering the values resets the state. *)
Example reorder_resets :
  state (render {| state := at_ (-1) 2; previousItems := ABC |}
                [item "B"; item "A"; item "C"]) = at_ 0 0.
Proof. reflexivity. Qed.

(** ** Slots of the window and positions in the list *)

Section Slots.

Context {V : Type}.
Implicit Types (p : Props V) (st : State) (r : Z).

(** What a position of the rotated array holds. *)
Lemma arrayToRotated_slot {A : Type} (l : list A) r (j : nat) :
  (j < length l)%nat ->
  Js.arrayToRotated l r !! j
  = l !! Z.to_nat ((Z.of_nat j - r) mod Z.of_nat (length l)).
Proof.
  intros Hj. rewrite arrayToRotated_rotatedLeft. unfold rotatedLeft.
  set (n := Z.of_nat (length l)).
  assert (Hn : 0 < n) by lia.
  pose proof (Z.mod_pos_bound (- r) n Hn).
  rewrite lookup_rotate_r by done.
  f_equal. unfold rotate_nat_add. rewrite Z2Nat.id by lia. fold n.
  rewrite Z.add_mod_idemp_l by lia. f_equal. f_equal. lia.
Qed.

(** The slice the component takes is a prefix of the rotated array,
    whatever the limit. *)
Lemma slicedItems_prefix p r :
  exists k : nat,
    slicedItems p r = take k (Js.arrayToRotated (items p) r)
    \/ slicedItems p r = items p.
Proof.
  unfold slicedItems. destruct (hasLimit p); [| exists 0%nat; by right].
  unfold Js.slice, Js.relative.
  replace (0 <? 0) with false by reflexivity.
  rewrite (Z.min_l 0) by lia. change (Z.to_nat 0) with 0%nat.
  rewrite drop_0. eexists. by left.
Qed.

(** With a usable limit the window has the size the data model gives. *)
Lemma length_slicedItems_windowSize p r :
  limitOk p -> Z.of_nat (length (slicedItems p r)) = windowSize p.
Proof.
  unfold limitOk, windowSize. intros Hok.
  destruct (customLimit p) as [c |] eqn:Hc.
  - destruct (Z.lt_ge_cases c (itemsLength p)) as [Hlt | Hge].
    + rewrite (length_slicedItems p c) by (first [done | lia]). lia.
    + unfold slicedItems. rewrite hasLimit_false by (rewrite Hc; lia).
      unfold itemsLength in *. lia.
  - unfold slicedItems. by rewrite hasLimit_false by (by rewrite Hc).
Qed.

Lemma slicedItems_slot p (c : Z) r (j : nat) :
  customLimit p = Some c ->
  0 <= c < itemsLength p ->
  Z.of_nat j < c ->
  slicedItems p r !! j
  = items p !! Z.to_nat ((Z.of_nat j - r) mod itemsLength p).
Proof.
  intros Hc Hb Hj. rewrite (slicedItems_limit p c) by done.
  rewrite lookup_take_lt by lia.
  apply arrayToRotated_slot. unfold itemsLength in Hb. lia.
Qed.

(** Under a limit, slot [j] of the window shows the item at position
    [(j - rotateIndex) mod itemCount] of the list. *)
Theorem visible_slot_shows_rotated_item p (c : Z) r (j : nat) :
  customLimit p = Some c ->
  0 <= c < itemsLength p ->
  Z.of_nat j < c ->
  slicedItems p r !! j
  = items p !! Z.to_nat ((Z.of_nat j - r) mod itemsLength p).
Proof. apply slicedItems_slot. Qed.

(** Under a limit, lowering [rotateIndex] by one moves every visible item
    up one slot, and raising it by one moves every visible item down one
    slot: the window scrolls over the list one item at a time. *)
Theorem window_scrolls_one_item p (c : Z) r (j : nat) :
  customLimit p = Some c ->
  0 <= c < itemsLength p ->
  Z.of_nat j + 1 < c ->
  slicedItems p (r - 1) !! j = slicedItems p r !! S j
  /\ slicedItems p (r + 1) !! S j = slicedItems p r !! j.
Proof.
  intros Hc Hb Hj.
  rewrite !(slicedItems_slot p c) by (first [done | lia]).
  split; do 3 f_equal; lia.
Qed.

(** The window never shows an item that is not in the list, and shows no
    item twice when the list has none twice. *)
Theorem visible_slice_within_items p r :
  slicedItems p r ⊆ items p
  /\ (NoDup (items p) -> NoDup (slicedItems p r)).
Proof.
  assert (Hperm : Js.arrayToRotated (items p) r ≡ₚ items p).
  { rewrite arrayToRotated_rotatedLeft. unfold rotatedLeft, rotate.
    rewrite Permutation_app_comm. by rewrite take_drop. }
  destruct (slicedItems_prefix p r) as [k [-> | ->]]; [| done].
  split.
  - intros x Hx. apply subseteq_take in Hx. by rewrite Hperm in Hx.
  - intros Hnd. eapply sublist_NoDup; [| apply sublist_take].
    by rewrite Hperm.
Qed.

End Slots.

Lemma visible_slot_shows_rotated_item_witness :
  slicedItems (props ABCDE (Some 3)) (-1) !! 2%nat
  = items (props ABCDE (Some 3))
      !! Z.to_nat ((Z.of_nat 2 - -1) mod itemsLength (props ABCDE (Some 3))).
Proof.
  apply (visible_slot_shows_rotated_item (props ABCDE (Some 3)) 3 (-1) 2);
    [reflexivity | vm_compute; split; [discriminate | reflexivity]
    | reflexivity].
Defined.

Lemma window_scrolls_one_item_witness :
  slicedItems (props ABCDE (Some 3)) (0 - 1) !! 0%nat
    = slicedItems (props ABCDE (Some 3)) 0 !! 1%nat
  /\ slicedItems (props ABCDE (Some 3)) (0 + 1) !! 1%nat
     = slicedItems (props ABCDE (Some 3)) 0 !! 0%nat.
Proof.
  apply (window_scrolls_one_item (props ABCDE (Some 3)) 3 0 0);
    [reflexivity | vm_compute; split; [discriminate | reflexivity]
    | reflexivity].
Defined.

(** ** The highlighted item *)

Section Highlight.

Context {V : Type}.
Implicit Types (p : Props V) (st : State) (r : Z).

(** Whether the limit is in force, from the prop and the item count. *)
Lemma hasLimit_cases p :
  limitOk p ->
  (hasLimit p = true
   /\ exists c, customLimit p = Some c /\ 0 <= c < itemsLength p
                /\ windowSize p = c)
  \/ (hasLimit p = false /\ windowSize p = itemsLength p).
Proof.
  unfold limitOk, windowSize. intros Hok.
  destruct (customLimit p) as [c |] eqn:Hc.
  - destruct (Z.lt_ge_cases c (itemsLength p)) as [Hlt | Hge].
    + left. destruct (limit_Some p c Hc Hlt) as [Hl _].
      split; [done |]. exists c. repeat split; lia.
    + right. split; [| lia]. apply hasLimit_false. rewrite Hc. lia.
  - right. split; [| done]. apply hasLimit_false. by rewrite Hc.
Qed.

(** From a selection inside the window, the highlighted item is the item of
    the list at the logical index. *)
Lemma highlightedItem_logical p st :
  limitOk p ->
  validSelection p st ->
  0 <= logicalIndex p st < itemsLength p
  /\ highlightedItem p st = items p !! Z.to_nat (logicalIndex p st).
Proof.
  intros Hok Hv. unfold validSelection in Hv.
  unfold highlightedItem, logicalIndex, Js.index.
  rewrite (proj2 (Z.ltb_ge (selectedIndex st) 0)) by lia.
  destruct (hasLimit_cases p Hok) as [[Hl (c & Hc & Hb & Hw)] | [Hl Hw]];
    rewrite Hl.
  - split; [apply Z.mod_pos_bound; lia |].
    rewrite (slicedItems_slot p c) by (first [done | lia]).
    by rewrite Z2Nat.id by lia.
  - split; [lia |]. unfold slicedItems. by rewrite Hl.
Qed.

Lemma highlightedItem_is_Some p st :
  limitOk p -> validSelection p st -> is_Some (highlightedItem p st).
Proof.
  intros Hok Hv.
  destruct (highlightedItem_logical p st Hok Hv) as [Hb ->].
  apply lookup_lt_is_Some. unfold itemsLength in Hb. lia.
Qed.

(** The Next values move the logical index one item on, around the end of
    the list. *)
Lemma logicalIndex_next p st :
  limitOk p ->
  validSelection p st ->
  logicalIndex p (nextTransition p st)
  = (logicalIndex p st + 1) mod itemsLength p.
Proof.
  intros Hok Hv. unfold validSelection in Hv.
  unfold logicalIndex, nextTransition. rewrite limit_windowSize.
  destruct (hasLimit_cases p Hok) as [[Hl (c & Hc & Hb & Hw)] | [Hl Hw]];
    rewrite Hl;
    destruct (Z.eqb_spec (selectedIndex st) (windowSize p - 1)) as [E | E];
    cbn [selectedIndex rotateIndex].
  - rewrite Z.add_mod_idemp_l by lia. f_equal. lia.
  - rewrite Z.add_mod_idemp_l by lia. f_equal. lia.
  - rewrite E, Hw. replace (itemsLength p - 1 + 1) with (itemsLength p) by lia.
    by rewrite Z.mod_same by lia.
  - by rewrite Z.mod_small by lia.
Qed.

(** Tab moves the highlight to the next item of the list, and from the last
    item to the first, with or without a limit; [onHighlight] is told that
    item. *)
Theorem tab_highlights_next_item p st :
  isFocused p = true ->
  limitOk p ->
  validSelection p st ->
  highlightedItem p st = items p !! Z.to_nat (logicalIndex p st)
  /\ highlightedItem p (after p st Tab)
     = items p !! Z.to_nat ((logicalIndex p st + 1) mod itemsLength p)
  /\ highlighted (calls p st Tab)
     = if onHighlight p then [highlightedItem p (after p st Tab)] else [].
Proof.
  intros Hf Hok Hv. split; [by apply highlightedItem_logical |].
  rewrite after_Tab by done. split.
  - rewrite <- logicalIndex_next by done.
    by apply highlightedItem_logical, nextTransition_valid.
  - rewrite calls_Tab, Hf, highlighted_app, highlighted_highlight.
    by destruct (onHighlight p).
Qed.

Lemma repeat_Tab_logical p (n : nat) st :
  isFocused p = true ->
  limitOk p ->
  validSelection p st ->
  validSelection p (repeat_event p Tab n st)
  /\ logicalIndex p (repeat_event p Tab n st)
     = (logicalIndex p st + Z.of_nat n) mod itemsLength p.
Proof.
  intros Hf Hok Hv. induction n as [| n [IHv IHl]].
  - split; [done |]. rewrite Z.add_0_r.
    destruct (highlightedItem_logical p st Hok Hv) as [Hb _].
    change (repeat_event p Tab 0 st) with st. by rewrite Z.mod_small.
  - rewrite repeat_event_S, after_Tab by done.
    split; [by apply nextTransition_valid |].
    rewrite logicalIndex_next, IHl by done.
    destruct (highlightedItem_logical p st Hok Hv) as [Hb _].
    rewrite Z.add_mod_idemp_l by lia. f_equal. lia.
Qed.

(** Tab pressed [itemCount] times comes back to the item it started from,
    with or without a limit. *)
Theorem tab_cycle_restores_highlight p st :
  isFocused p = true ->
  limitOk p ->
  validSelection p st ->
  highlightedItem p (repeat_event p Tab (length (items p)) st)
  = highlightedItem p st.
Proof.
  intros Hf Hok Hv.
  destruct (repeat_Tab_logical p (length (items p)) st Hf Hok Hv) as [Hv' Hl].
  destruct (highlightedItem_logical p st Hok Hv) as [Hb ->].
  destruct (highlightedItem_logical p _ Hok Hv') as [_ ->].
  rewrite Hl. fold (itemsLength p).
  rewrite <- (Z.mul_1_l (itemsLength p)) at 1.
  by rewrite Z.mod_add, Z.mod_small by lia.
Qed.

(** The return key confirms the highlighted item: one [onSelect] call with
    it, no [onHighlight] call, no state change. *)
Theorem return_confirms_highlighted_item p st :
  isFocused p = true ->
  onSelect p = true ->
  limitOk p ->
  validSelection p st ->
  exists selectedItem,
    highlightedItem p st = Some selectedItem
    /\ calls p st Return = [callOnSelect (Some selectedItem)]
    /\ after p st Return = st.
Proof.
  intros Hf Hs Hok Hv.
  destruct (highlightedItem_is_Some p st Hok Hv) as [x Hx].
  exists x. split; [done |].
  assert (Hc : calls p st Return = [callOnSelect (Some x)]).
  { unfold calls, onInput, handler, returnBlock. rewrite Hf, Hs.
    fold (highlightedItem p st). rewrite Hx.
    by destruct (direction p). }
  split; [done |]. unfold after, step. fold (calls p st Return).
  by rewrite Hc.
Qed.

End Highlight.

Lemma tab_highlights_next_item_witness :
  highlightedItem (props ABCDE (Some 3)) (at_ (-2) 2)
    = ABCDE !! Z.to_nat (logicalIndex (props ABCDE (Some 3)) (at_ (-2) 2))
  /\ highlightedItem (props ABCDE (Some 3))
       (after (props ABCDE (Some 3)) (at_ (-2) 2) Tab)
     = ABCDE !! Z.to_nat
         ((logicalIndex (props ABCDE (Some 3)) (at_ (-2) 2) + 1)
            mod itemsLength (props ABCDE (Some 3)))
  /\ highlighted (calls (props ABCDE (Some 3)) (at_ (-2) 2) Tab)
     = [highlightedItem (props ABCDE (Some 3))
          (after (props ABCDE (Some 3)) (at_ (-2) 2) Tab)].
Proof.
  apply (tab_highlights_next_item (props ABCDE (Some 3)) (at_ (-2) 2));
    [reflexivity | vm_compute; discriminate
    | vm_compute; split; [discriminate | reflexivity]].
Defined.

Lemma tab_cycle_restores_highlight_witness :
  highlightedItem (props ABCDE (Some 3))
    (repeat_event (props ABCDE (Some 3)) Tab (length ABCDE) (at_ 0 1))
  = highlightedItem (props ABCDE (Some 3)) (at_ 0 1).
Proof.
  apply (tab_cycle_restores_highlight (props ABCDE (Some 3)) (at_ 0 1));
    [reflexivity | vm_compute; discriminate
    | vm_compute; split; [discriminate | reflexivity]].
Defined.

Lemma return_confirms_highlighted_item_witness :
  exists selectedItem,
    highlightedItem (props ABCDE (Some 3)) (at_ (-1) 2) = Some selectedItem
    /\ calls (props ABCDE (Some 3)) (at_ (-1) 2) Return
       = [callOnSelect (Some selectedItem)]
    /\ after (props ABCDE (Some 3)) (at_ (-1) 2) Return = at_ (-1) 2.
Proof.
  apply (return_confirms_highlighted_item (props ABCDE (Some 3)) (at_ (-1) 2));
    [reflexivity | reflexivity | vm_compute; discriminate
    | vm_compute; split; [discriminate | reflexivity]].
Defined.

(** ** The whole log of an event *)

Section Log.

Context {V : Type}.
Implicit Types (p : Props V) (st : State) (k : Key).

(** The calls of the handler, in order: the Previous block if its test
    passes, the Next block if its test passes, then the number-key and the
    return-key blocks; an early [return] of either of the first two cuts
    the rest. *)
Lemma handler_calls p st input k :
  let cP := String.eqb input "k"
            || (tab k && shift k)
            || (Direction_eqb (direction p) column && upArrow k)
            || (Direction_eqb (direction p) row && leftArrow k) in
  let cN := String.eqb input "j"
            || tab k
            || (Direction_eqb (direction p) column && downArrow k)
            || (Direction_eqb (direction p) row && rightArrow k) in
  let xP := (selectedIndex st =? 0) && negb (tab k && shift k) in
  let xN := (selectedIndex st =? limit p - 1) && negb (tab k) in
  let pc := [setRotateIndex (rotateIndex (previousTransition p st));
             setSelectedIndex (selectedIndex (previousTransition p st))]
              ++ highlight p (previousTransition p st) in
  let nc := [setRotateIndex (rotateIndex (nextTransition p st));
             setSelectedIndex (selectedIndex (nextTransition p st))]
              ++ highlight p (nextTransition p st) in
  let rest := (if Js.test_1_9 input then fst (digitBlock p st input) else [])
              ++ (if return_ k then fst (returnBlock p st) else []) in
  Handler.calls (handler p st input k)
  = if cP && xP then []
    else (if cP then pc else [])
         ++ (if cN && xN then [] else (if cN then nc else []) ++ rest).
Proof.
  intros cP cN xP xN pc nc rest. subst rest. unfold handler.
  rewrite previousBlock_eq, nextBlock_eq. fold cP cN xP xN pc nc.
  destruct (digitBlock_commit p st input) as [Hd _].
  destruct (returnBlock_commit p st) as [Hr _].
  destruct (digitBlock p st input) as [dcs dr]. cbn [snd fst] in *. subst dr.
  destruct (returnBlock p st) as [rcs rr]. cbn [snd fst] in *. subst rr.
  clearbody cP cN xP xN pc nc.
  destruct cP, cN, xP, xN, (Js.test_1_9 input), (return_ k);
    cbn [Handler.when Handler.bind Handler.calls Handler.exit Handler.ret
         andb fst snd];
    rewrite ?app_nil_r, ?app_nil_l, <- ?app_assoc; reflexivity.
Qed.

Lemma highlighted_digitBlock p st input :
  highlighted (fst (digitBlock p st input)) = [].
Proof.
  unfold digitBlock, Handler.when.
  repeat match goal with
         | |- context [if ?b then _ else _] => destruct b
         | |- context [match ?o with Some _ => _ | None => _ end] =>
             destruct o
         end; reflexivity.
Qed.

Lemma highlighted_returnBlock p st :
  highlighted (fst (returnBlock p st)) = [].
Proof. unfold returnBlock, Handler.when. by destruct (onSelect p). Qed.

Lemma highlighted_setters (a b : Z) (cs : list (Call V)) :
  highlighted ([setRotateIndex a; setSelectedIndex b] ++ cs) = highlighted cs.
Proof. reflexivity. Qed.

Lemma highlighted_setters_only (a b : Z) :
  highlighted (V := V) [setRotateIndex a; setSelectedIndex b] = [].
Proof. reflexivity. Qed.

Lemma highlighted_nil : highlighted (@nil (Call V)) = [].
Proof. reflexivity. Qed.

Lemma length_highlighted_highlight p st' :
  (length (highlighted (highlight p st')) <= 1)%nat.
Proof. rewrite highlighted_highlight. destruct (onHighlight p); cbn; lia. Qed.

(** An event that does not pass both the Previous and the Next test calls
    [onHighlight] at most once. *)
Lemma highlighted_once p st input k :
  (String.eqb input "k"
   || (tab k && shift k)
   || (Direction_eqb (direction p) column && upArrow k)
   || (Direction_eqb (direction p) row && leftArrow k))
  && (String.eqb input "j"
      || tab k
      || (Direction_eqb (direction p) column && downArrow k)
      || (Direction_eqb (direction p) row && rightArrow k)) = false ->
  (length (highlighted (onInput p st input k)) <= 1)%nat.
Proof.
  unfold onInput. destruct (isFocused p); [| cbn; lia].
  rewrite handler_calls. cbv zeta.
  pose proof (length_highlighted_highlight p (previousTransition p st)) as HP.
  pose proof (length_highlighted_highlight p (nextTransition p st)) as HN.
  intros Hc.
  remember (String.eqb input "k"
            || (tab k && shift k)
            || (Direction_eqb (direction p) column && upArrow k)
            || (Direction_eqb (direction p) row && leftArrow k)) as cP.
  remember (String.eqb input "j"
            || tab k
            || (Direction_eqb (direction p) column && downArrow k)
            || (Direction_eqb (direction p) row && rightArrow k)) as cN.
  clear HeqcP HeqcN.
  destruct cP, cN; try discriminate Hc;
    destruct ((selectedIndex st =? 0) && negb (tab k && shift k)),
             ((selectedIndex st =? limit p - 1) && negb (tab k)),
             (Js.test_1_9 input), (return_ k);
    cbn [andb];
    rewrite ?app_nil_l, ?app_nil_r, ?highlighted_setters, ?highlighted_app,
      ?highlighted_digitBlock, ?highlighted_returnBlock, ?highlighted_nil,
      ?highlighted_setters_only, ?app_nil_r, ?app_nil_l, ?length_app;
    cbn [length Nat.add]; lia.
Qed.

(** Every single-key event other than Shift+Tab (Tab, Return, an arrow, a
    printable character) calls [onHighlight] at most once. *)
Theorem single_key_highlights_at_most_once p st (c : string) e :
  e ∈ singleKeyEvents c ->
  (length (highlighted (calls p st e)) <= 1)%nat.
Proof.
  unfold singleKeyEvents. rewrite !elem_of_cons.
  intros He. unfold calls. apply highlighted_once.
  destruct He as [-> | [-> | [-> | [-> | [-> | [-> | [-> | He]]]]]]];
    [| | | | | | | by apply elem_of_nil in He];
    cbn [Tab Return Char fst snd tabKey returnKey noKey upArrowKey
         downArrowKey leftArrowKey rightArrowKey
         tab shift upArrow downArrow leftArrow rightArrow];
    rewrite ?andb_false_r, ?andb_true_r, ?orb_false_r;
    try (destruct (direction p); reflexivity).
  destruct (String.eqb_spec c "k") as [-> | Hk]; reflexivity.
Qed.

(** From a selection inside the window, no event hands [undefined] to
    [onHighlight] or [onSelect]. *)
Theorem callbacks_receive_items p st input k :
  limitOk p ->
  validSelection p st ->
  Forall passesItem (onInput p st input k).
Proof.
  intros Hok Hv. unfold onInput. destruct (isFocused p); [| constructor].
  assert (Hh : forall st', validSelection p st' ->
                 Forall passesItem (highlight p st')).
  { intros st' Hv'. unfold highlight. destruct (onHighlight p); [| constructor].
    fold (highlightedItem p st').
    destruct (highlightedItem_is_Some p st' Hok Hv') as [x ->].
    by repeat constructor. }
  assert (Hd : Forall passesItem (fst (digitBlock p st input))).
  { unfold digitBlock, Handler.when.
    repeat match goal with
           | |- context [if ?b then _ else _] => destruct b
           | |- context [match ?o with Some _ => _ | None => _ end] =>
               destruct o
           end; by repeat constructor. }
  assert (Hr : Forall passesItem (fst (returnBlock p st))).
  { unfold returnBlock, Handler.when. destruct (onSelect p); [| constructor].
    fold (highlightedItem p st).
    destruct (highlightedItem_is_Some p st Hok Hv) as [x ->].
    by repeat constructor. }
  pose proof (Hh _ (nextTransition_valid p st Hv)) as HN.
  rewrite handler_calls. cbv zeta.
  destruct (Z.eqb_spec (selectedIndex st) 0) as [E0 | E0];
    destruct (tab k && shift k) eqn:Ets.
  all: try (pose proof (Hh _ (previousTransition_valid p st k Hv
                               ltac:(intros [? ?]; congruence))) as HP).
  all: repeat match goal with
         | |- context [if ?b then _ else _] =>
             match b with
             | context [if _ then _ else _] => fail 1
             | _ => destruct b eqn:?
             end
         end;
    rewrite ?Forall_app; repeat split;
    first [done | by repeat constructor | idtac].
  all: cbn [andb negb] in *; rewrite ?andb_true_r, ?andb_false_r in *;
    try congruence.
Qed.

(** No input event ever increases [rotateIndex]: the window scrolls one way
    only. *)
Theorem rotateIndex_never_increases p st input k :
  rotateIndex (step p st input k) <= rotateIndex st.
Proof.
  unfold step, onInput. destruct (isFocused p); [| cbn; lia].
  rewrite handler_calls. cbv zeta.
  assert (Hrest : forall st0,
            commit st0
              ((if Js.test_1_9 input then fst (digitBlock p st input) else [])
                 ++ (if return_ k then fst (returnBlock p st) else []))
            = st0).
  { intros st0. rewrite commit_app.
    destruct (digitBlock_commit p st input) as [_ Hd].
    destruct (returnBlock_commit p st) as [_ Hr].
    destruct (Js.test_1_9 input), (return_ k);
      by rewrite ?Hd, ?Hr, ?commit_nil. }
  revert Hrest.
  generalize ((if Js.test_1_9 input then fst (digitBlock p st input) else [])
                ++ (if return_ k then fst (returnBlock p st) else [])).
  intros rest Hrest.
  assert (HN : rotateIndex (nextTransition p st) <= rotateIndex st).
  { unfold nextTransition.
    destruct (selectedIndex st =? limit p - 1); cbn [rotateIndex]; lia. }
  assert (HP : selectedIndex st <> 0 ->
               rotateIndex (previousTransition p st) = rotateIndex st).
  { intros Hs. unfold previousTransition.
    by destruct (Z.eqb_spec (selectedIndex st) 0). }
  destruct (tab k) eqn:Ht, (shift k) eqn:Hs;
    cbn [andb negb orb]; rewrite ?orb_true_r, ?andb_true_r, ?andb_false_r;
    cbn [andb negb orb].
  - (* Shift+Tab: both tests pass and neither block returns early *)
    rewrite !commit_app, !commit_set, commit_nil, !commit_highlight, Hrest.
    done.
  - (* tab without shift *)
    destruct (Z.eqb_spec (selectedIndex st) 0) as [E0 | E0];
      rewrite ?andb_true_r, ?andb_false_r;
      repeat match goal with
             | |- context [if ?b then _ else _] =>
                 match b with
                 | context [if _ then _ else _] => fail 1
                 | _ => destruct b
                 end
             end;
      rewrite ?app_nil_l, ?commit_app, ?commit_set, ?commit_nil,
        ?commit_highlight, ?Hrest, ?commit_nil;
      first [lia | by rewrite HP].
  - destruct (Z.eqb_spec (selectedIndex st) 0) as [E0 | E0];
      rewrite ?andb_true_r, ?andb_false_r;
      repeat match goal with
             | |- context [if ?b then _ else _] =>
                 match b with
                 | context [if _ then _ else _] => fail 1
                 | _ => destruct b
                 end
             end;
      rewrite ?app_nil_l, ?commit_app, ?commit_set, ?commit_nil,
        ?commit_highlight, ?Hrest, ?commit_nil;
      first [lia | by rewrite HP].
  - destruct (Z.eqb_spec (selectedIndex st) 0) as [E0 | E0];
      rewrite ?andb_true_r, ?andb_false_r;
      repeat match goal with
             | |- context [if ?b then _ else _] =>
                 match b with
                 | context [if _ then _ else _] => fail 1
                 | _ => destruct b
                 end
             end;
      rewrite ?app_nil_l, ?commit_app, ?commit_set, ?commit_nil,
        ?commit_highlight, ?Hrest, ?commit_nil;
      first [lia | by rewrite HP].
Qed.

End Log.

Lemma single_key_highlights_at_most_once_witness :
  (length (highlighted
             (calls (props ABCDE (Some 3%Z)) (at_ 0%Z 2%Z) (Char "j")))
   <= 1)%nat.
Proof.
  apply (single_key_highlights_at_most_once
           (props ABCDE (Some 3)) (at_ 0 2) "j" (Char "j")).
  unfold singleKeyEvents. rewrite !elem_of_cons. right. right. by left.
Defined.

Lemma callbacks_receive_items_witness :
  Forall passesItem (onInput (props ABCDE (Some 3)) (at_ 0 0) "" shiftTabKey).
Proof.
  apply (callbacks_receive_items (props ABCDE (Some 3)) (at_ 0 0) "" shiftTabKey);
    [vm_compute; discriminate
    | vm_compute; split; [discriminate | reflexivity]].
Defined.

(** ** Plain keys *)

Section PlainKeys.

Context {V : Type}.
Implicit Types (p : Props V) (st : State).






(** Without a limit, Tab at the last index goes to index 0 and tells
    [onHighlight] the first item. *)
Theorem tab_wraps_to_first_without_limit p (r : Z) :
  isFocused p = true ->
  hasLimit p = false ->
  after p {| rotateIndex := r; selectedIndex := itemsLength p - 1 |} Tab
    = {| rotateIndex := r - 1; selectedIndex := 0 |}
  /\ highlighted
       (calls p {| rotateIndex := r; selectedIndex := itemsLength p - 1 |} Tab)
     = if onHighlight p then [items p !! 0%nat] else [].
Proof.
  intros Hf Hl.
  assert (E : nextTransition p
                {| rotateIndex := r; selectedIndex := itemsLength p - 1 |}
              = {| rotateIndex := r - 1; selectedIndex := 0 |}).
  { unfold nextTransition. rewrite <- (limit_or_length p), Hl.
    cbn [selectedIndex rotateIndex]. by rewrite Z.eqb_refl. }
  split.
  - by rewrite after_Tab.
  - rewrite calls_Tab, Hf, E, highlighted_app, highlighted_highlight.
    unfold slicedItems. rewrite Hl. by destruct (onHighlight p).
Qed.

End PlainKeys.



Lemma tab_wraps_to_first_without_limit_witness :
  after (props ABC None)
    {| rotateIndex := 0; selectedIndex := itemsLength (props ABC None) - 1 |}
    Tab
  = {| rotateIndex := 0 - 1; selectedIndex := 0 |}
  /\ highlighted
       (calls (props ABC None)
          {| rotateIndex := 0;
             selectedIndex := itemsLength (props ABC None) - 1 |} Tab)
     = [ABC !! 0%nat].
Proof.
  apply (tab_wraps_to_first_without_limit (props ABC None) 0); reflexivity.
Defined.

(** ** The initial highlight *)

Section Initial.

Context {V : Type}.
Implicit Types (p : Props V) (st : State).

(** Under a limit, the component starts with the item at [initialIndex]
    highlighted, also when that index lies beyond the window: the window is
    rotated so that the item shows in the last slot. An index past the end
    of the list counts around it. *)
Theorem initial_highlight_with_limit p (c : Z) :
  customLimit p = Some c ->
  1 <= c < itemsLength p ->
  0 <= initialIndex p ->
  highlightedItem p (initialState p)
  = items p !! Z.to_nat (initialIndex p mod itemsLength p).
Proof.
  intros Hc Hb Hi.
  destruct (limit_Some p c Hc) as [Hl Hlim]; [lia |].
  assert (Hok : limitOk p) by (unfold limitOk; rewrite Hc; lia).
  assert (Hw : windowSize p = c) by (unfold windowSize; rewrite Hc; lia).
  assert (Hv : validSelection p (initialState p)).
  { unfold validSelection, initialState, lastIndex. rewrite Hw, Hlim.
    cbn [selectedIndex].
    destruct (Z.eqb_spec (initialIndex p) 0);
      destruct (Z.gtb_spec (initialIndex p) (c - 1)); cbn [negb]; lia. }
  destruct (highlightedItem_logical p _ Hok Hv) as [_ ->].
  f_equal. f_equal. unfold logicalIndex, initialState, lastIndex.
  rewrite Hl, Hlim. cbn [selectedIndex rotateIndex].
  destruct (Z.eqb_spec (initialIndex p) 0) as [E | E];
    destruct (Z.gtb_spec (initialIndex p) (c - 1)); cbn [negb];
    f_equal; lia.
Qed.

(** Without a limit, the component starts with the item at [initialIndex]
    highlighted, and with the last item when the index is past the end. *)
Theorem initial_highlight_without_limit p :
  hasLimit p = false ->
  items p <> [] ->
  0 <= initialIndex p ->
  highlightedItem p (initialState p)
  = items p !! Z.to_nat (Z.min (initialIndex p) (itemsLength p - 1)).
Proof.
  intros Hl Hne Hi.
  assert (Hn : 1 <= itemsLength p).
  { unfold itemsLength. destruct (items p); [done |].
    rewrite length_cons. lia. }
  unfold highlightedItem, slicedItems, initialState, lastIndex, Js.index.
  rewrite Hl, <- (limit_or_length p), Hl. cbn [selectedIndex rotateIndex].
  destruct (Z.eqb_spec (initialIndex p) 0) as [E | E];
    destruct (Z.gtb_spec (initialIndex p) (itemsLength p - 1)); cbn [negb];
    match goal with
    | |- context [?a <? 0] => rewrite (proj2 (Z.ltb_ge a 0)) by lia
    end; f_equal; lia.
Qed.

End Initial.

Lemma initial_highlight_with_limit_witness :
  highlightedItem (propsFrom ABCDE (Some 3) 4)
                  (initialState (propsFrom ABCDE (Some 3) 4))
  = items (propsFrom ABCDE (Some 3) 4)
      !! Z.to_nat (initialIndex (propsFrom ABCDE (Some 3) 4)
                     mod itemsLength (propsFrom ABCDE (Some 3) 4)).
Proof.
  apply (initial_highlight_with_limit (propsFrom ABCDE (Some 3) 4) 3);
    [reflexivity | vm_compute; split; [discriminate | reflexivity]
    | vm_compute; discriminate].
Defined.

Lemma initial_highlight_without_limit_witness :
  highlightedItem (propsFrom ABC None 7) (initialState (propsFrom ABC None 7))
  = items (propsFrom ABC None 7)
      !! Z.to_nat (Z.min (initialIndex (propsFrom ABC None 7))
                         (itemsLength (propsFrom ABC None 7) - 1)).
Proof.
  apply (initial_highlight_without_limit (propsFrom ABC None 7));
    [reflexivity | discriminate | vm_compute; discriminate].
Defined.

(** ** The rendered boxes *)

Section Rendered.

Context {V : Type}.
Implicit Types (p : Props V) (st : State) (d : bool).

Lemma length_view p st d :
  length (view p st d) = length (slicedItems p (rotateIndex st)).
Proof. unfold view. apply length_imap. Qed.

Lemma view_lookup_Some p st d (i : nat) box :
  view p st d !! i = Some box ->
  slicedItems p (rotateIndex st) !! i = Some (boxItem box)
  /\ isSelected box = (Z.of_nat i =? selectedIndex st).
Proof.
  unfold view. rewrite list_lookup_imap.
  destruct (slicedItems p (rotateIndex st) !! i) as [x |]; [| done].
  cbn. intros [= <-]. by destruct (Direction_eqb (direction p) column).
Qed.

(** The render shows the visible items in order and marks exactly the
    highlighted one as selected: the box at slot [selectedIndex], and no
    other, has [isSelected], and it shows the item the return key would
    confirm. *)
Theorem view_marks_highlighted_item p st d :
  limitOk p ->
  validSelection p st ->
  (exists box,
     view p st d !! Z.to_nat (selectedIndex st) = Some box
     /\ isSelected box = true
     /\ highlightedItem p st = Some (boxItem box))
  /\ (forall (i : nat) box,
        view p st d !! i = Some box -> isSelected box = true ->
        i = Z.to_nat (selectedIndex st))
  /\ boxItem <$> view p st d = slicedItems p (rotateIndex st).
Proof.
  intros Hok Hv. pose proof Hv as [Hs0 Hs1]. split; [| split].
  - destruct (lookup_lt_is_Some_2 (view p st d) (Z.to_nat (selectedIndex st)))
      as [box Hbox].
    { rewrite length_view.
      pose proof (length_slicedItems_windowSize p (rotateIndex st) Hok). lia. }
    exists box. split; [done |].
    destruct (view_lookup_Some p st d _ box Hbox) as [Hitem Hsel].
    split.
    + rewrite Hsel. apply Z.eqb_eq. lia.
    + unfold highlightedItem, Js.index.
      by rewrite (proj2 (Z.ltb_ge (selectedIndex st) 0)) by lia.
  - intros i box Hbox Hsel.
    destruct (view_lookup_Some p st d _ box Hbox) as [_ E].
    rewrite Hsel in E. symmetry in E. apply Z.eqb_eq in E. lia.
  - unfold view. rewrite fmap_imap.
    rewrite <- (list_fmap_id (slicedItems p (rotateIndex st))) at 2.
    rewrite <- imap_const. apply imap_ext. intros i x _. cbn.
    by destruct (Direction_eqb (direction p) column).
Qed.




End Rendered.

Lemma view_marks_highlighted_item_witness :
  (exists box,
     view (rowProps ABCDE (Some 3)) (at_ (-1) 2) true
       !! Z.to_nat (selectedIndex (at_ (-1) 2)) = Some box
     /\ isSelected box = true
     /\ highlightedItem (rowProps ABCDE (Some 3)) (at_ (-1) 2)
        = Some (boxItem box))
  /\ (forall (i : nat) box,
        view (rowProps ABCDE (Some 3)) (at_ (-1) 2) true !! i = Some box ->
        isSelected box = true ->
        i = Z.to_nat (selectedIndex (at_ (-1) 2)))
  /\ boxItem <$> view (rowProps ABCDE (Some 3)) (at_ (-1) 2) true
     = slicedItems (rowProps ABCDE (Some 3)) (rotateIndex (at_ (-1) 2)).
Proof.
  apply (view_marks_highlighted_item (rowProps ABCDE (Some 3)) (at_ (-1) 2) true);
    [vm_compute; discriminate
    | vm_compute; split; [discriminate | reflexivity]].
Defined.

(** Three items in a row: A | B | C, two dividers, none after C. *)
Example row_of_three :
  divider <$> view (rowProps ABC None) (at_ 0 0) true = [true; true; false]
  /\ isSelected <$> view (rowProps ABC None) (at_ 0 1) true
     = [false; true; false].
Proof. split; reflexivity. Qed.

(** ** Renders that keep or reset the state *)

Section Renders.

Context {V : Type} {deepEq : DeepStrictEqual V}.
Implicit Types (m : Mounted V) (p : Props V).

(** When deep equality is reflexive on the values, a render with the very
    array of the previous render never resets the state; in particular the
    effect of the first render keeps the initial selection. *)
Theorem same_array_keeps_state :
  (forall v : V, isDeepStrictEqual v v = true) ->
  (forall st (l : list (Item V)),
     state (render {| state := st; previousItems := l |} l) = st)
  /\ (forall p, state (mount p) = initialState p).
Proof.
  intros Hrefl. split; [| intros p; by apply mount_state].
  intros st l. apply render_same. cbn [previousItems].
  unfold sameValues. induction l; constructor; auto.
Qed.

(** A render with a list of another length always resets: adding or
    removing an item brings the selection back to the first slot of the
    unrotated window. *)
Theorem length_change_resets m (new : list (Item V)) :
  length (previousItems m) <> length new ->
  state (render m new) = {| rotateIndex := 0; selectedIndex := 0 |}.
Proof.
  intros Hlen. apply render_differs. intros Hs.
  by apply sameValues_length in Hs.
Qed.

End Renders.

Lemma same_array_keeps_state_witness :
  (forall st (l : list (Item string)),
     state (render {| state := st; previousItems := l |} l) = st)
  /\ (forall p : Props string, state (mount p) = initialState p).
Proof.
  apply (same_array_keeps_state (V := string)).
  intros v. apply String.eqb_refl.
Defined.

Lemma length_change_resets_witness :
  state (render {| state := at_ (-1) 2; previousItems := ABC |} ABCDE)
  = {| rotateIndex := 0; selectedIndex := 0 |}.
Proof.
  apply (length_change_resets {| state := at_ (-1) 2; previousItems := ABC |}
           ABCDE).
  vm_compute. discriminate.
Defined.

Lemma render_keeps_selection_valid_witness :
  validSelection (props ABCDE (Some 3))
    (state (render {| state := at_ (-1) 2; previousItems := ABCDE |}
                   (items (props ABCDE (Some 3))))).
Proof.
  apply (render_keeps_selection_valid
           (props ABCDE (Some 3)) (props ABCDE (Some 3))
           {| state := at_ (-1) 2; previousItems := ABCDE |}).
  - reflexivity.
  - reflexivity.
  - discriminate.
  - intros c [= <-]. lia.
  - vm_compute. split; [discriminate | reflexivity].
Defined.
